(** * renewable-viz: the fetch / paginate / normalise / deduplicate pipeline

    A shallow embedding of [data-processing/models.py],
    [data-processing/eia_atlas_client.py], the duplicate removal of
    [scripts/export_comprehensive_data.py] and the percentage column of
    [data-processing/filters.py], with the properties the specification
    states about them.

    Conventions of the embedding:
    - a Python [str] is a [string] whose characters are the code points
      0..255 of the text;
    - a Python [int] is a [Z], a Python [float] a binary64 [float];
    - a [dict] read by key is a [gmap]; a [dict] that is iterated is an
      association list in insertion order;
    - an exception is a value of [outcome]; the [while True] loop of
      [get_power_plants] runs on fuel and says so when it runs out. *)

From Stdlib Require Import ZArith List Floats Ascii String Bool Lia.
From stdpp Require Import gmap strings list fin_maps.
Import ListNotations.

Local Open Scope string_scope.
Local Open Scope list_scope.
Local Open Scope Z_scope.

(** ** models.py *)

Module Models.

(** [class EnergyType(Enum)], members in declaration order. *)
Inductive EnergyType : Set :=
| COAL | NATURAL_GAS | NUCLEAR | HYDRO | HYDRO_PUMPED | SOLAR | WIND
| GEOTHERMAL | BIOMASS | BATTERY | OTHER | CRUDE_OIL.

#[export] Instance EnergyType_eq_dec : EqDecision EnergyType.
Proof. solve_decision. Defined.

(** [EnergyType.X.value]: the canonical label of a member. *)
Definition value (t : EnergyType) : string :=
  match t with
  | COAL => "Coal"
  | NATURAL_GAS => "Natural Gas"
  | NUCLEAR => "Nuclear"
  | HYDRO => "Hydroelectric"
  | HYDRO_PUMPED => "Hydro Pumped Storage"
  | SOLAR => "Solar"
  | WIND => "Wind"
  | GEOTHERMAL => "Geothermal"
  | BIOMASS => "Biomass"
  | BATTERY => "Battery Storage"
  | OTHER => "Other"
  | CRUDE_OIL => "Crude Oil"
  end.

(** [str.lower()] on one code point below 256: the capitals A..Z and the
    Latin-1 capitals U+00C0..U+00DE (the sign U+00D7 apart) move up by 32,
    every other code point stays. *)
Definition lower_char (c : ascii) : ascii :=
  let n := nat_of_ascii c in
  if ((65 <=? n) && (n <=? 90))%nat
     || ((192 <=? n) && (n <=? 222) && negb (n =? 215))%nat
  then ascii_of_nat (n + 32)
  else c.

Fixpoint lower (s : string) : string :=
  match s with
  | EmptyString => EmptyString
  | String c s' => String (lower_char c) (lower s')
  end.

(** [text] begins with [key]. *)
Fixpoint starts_with (text key : string) : bool :=
  match key, text with
  | EmptyString, _ => true
  | String _ _, EmptyString => false
  | String c key', String d text' => Ascii.eqb c d && starts_with text' key'
  end.

(** [key in text] on strings: [key] occurs in [text] as a contiguous run,
    found at the first position where [text] goes on with [key]. *)
Fixpoint contains (text key : string) : bool :=
  starts_with text key
  || match text with
     | EmptyString => false
     | String _ rest => contains rest key
     end.

(** [key] is a substring of [text], said with concatenation. *)
Definition substring_of (key text : string) : Prop :=
  exists before after : string, text = (before ++ key ++ after)%string.

(** The dict literal [source_mapping] of [primary_energy_type], in
    insertion order, which is the order [.items()] yields. *)
Definition source_mapping : list (string * EnergyType) :=
  [ ("coal", COAL);
    ("natural gas", NATURAL_GAS);
    ("nuclear", NUCLEAR);
    ("hydro", HYDRO);
    ("hydroelectric", HYDRO);
    ("solar", SOLAR);
    ("wind", WIND);
    ("geothermal", GEOTHERMAL);
    ("biomass", BIOMASS);
    ("batteries", BATTERY);
    ("battery", BATTERY);
    ("crude oil", CRUDE_OIL);
    ("petroleum", CRUDE_OIL) ].

(** The [for key, energy_type in source_mapping.items()] loop with its
    early [return], and the [return EnergyType.OTHER] after it. *)
Fixpoint first_match (items : list (string * EnergyType)) (source_lower : string)
  : EnergyType :=
  match items with
  | [] => OTHER
  | (key, energy_type) :: items' =>
      if contains source_lower key then energy_type
      else first_match items' source_lower
  end.

(** [PowerPlant.primary_energy_type], as a function of [primary_source]. *)
Definition classify (primary_source : string) : EnergyType :=
  let source_lower := lower primary_source in
  first_match source_mapping source_lower.

(** The set literal [renewable_types] of [is_renewable]. *)
Definition renewable_types : list EnergyType :=
  [SOLAR; WIND; HYDRO; GEOTHERMAL; BIOMASS].

(** The ten members the specification lists as reachable by a keyword. *)
Definition keyword_reachable : list EnergyType :=
  [COAL; NATURAL_GAS; NUCLEAR; HYDRO; SOLAR; WIND; GEOTHERMAL; BIOMASS;
   BATTERY; CRUDE_OIL].

(** What the service sends.  A [Feature] is a JSON object whose keys are
    each present or absent; the embedding types every key by the type the
    dataclasses declare for the field it feeds, and [None] is an absent
    key; a key of the attributes or of the geometry that holds JSON null
    has no counterpart.  Where the code calls [.get] on what a key holds
    (the members [attributes] and [geometry] of a feature, the member
    [error] of a body), [held] says whether the key holds an object or
    another JSON value, and [RawFeature] is a feature before that is
    known. *)
Module Wire.

(** A JSON value that is not an object, by the Python type [json] gives
    it. *)
Inductive non_object : Set :=
| Null | Boolean | Integer | Real | Text | Array.

(** [type(v).__name__] *)
Definition type_name (v : non_object) : string :=
  match v with
  | Null => "NoneType"
  | Boolean => "bool"
  | Integer => "int"
  | Real => "float"
  | Text => "str"
  | Array => "list"
  end.

(** What a key holds where the code expects an object. *)
Inductive held (A : Type) : Type :=
| Object (a : A)
| Other (v : non_object).
Arguments Object {A} a.
Arguments Other {A} v.

Record Attributes : Type := {
  OBJECTID : option Z;
  Plant_Code : option Z;
  Plant_Name : option string;
  Utility_Name : option string;
  Utility_ID : option Z;
  Sector_Name : option string;
  PrimSource : option string;
  Latitude : option float;
  Longitude : option float;
  City : option string;
  County : option string;
  StateName : option string;
  Zip : option Z;
  Street_Address : option string;
  Total_MW : option float;
  Install_MW : option float;
  Coal_MW : option float;
  NG_MW : option float;
  Nuclear_MW : option float;
  Hydro_MW : option float;
  HydroPS_MW : option float;
  Solar_MW : option float;
  Wind_MW : option float;
  Geo_MW : option float;
  Bio_MW : option float;
  Bat_MW : option float;
  Crude_MW : option float;
  Other_MW : option float;
  tech_desc : option string;
  Source_Desc : option string;
  Period : option Z;
  Source : option string
}.

Record Geometry : Type := { x : option float; y : option float }.

Record Feature : Type := {
  attributes : option Attributes;
  geometry : option Geometry
}.

(** A feature as the body has it: each of its two members absent, an
    object, or another JSON value. *)
Record RawFeature : Type := {
  raw_attributes : option (held Attributes);
  raw_geometry : option (held Geometry)
}.

(** The empty dict [{}], read as attributes and as a geometry. *)
Definition no_attributes : Attributes :=
  {| OBJECTID := None; Plant_Code := None; Plant_Name := None;
     Utility_Name := None; Utility_ID := None; Sector_Name := None;
     PrimSource := None; Latitude := None; Longitude := None; City := None;
     County := None; StateName := None; Zip := None; Street_Address := None;
     Total_MW := None; Install_MW := None; Coal_MW := None; NG_MW := None;
     Nuclear_MW := None; Hydro_MW := None; HydroPS_MW := None;
     Solar_MW := None; Wind_MW := None; Geo_MW := None; Bio_MW := None;
     Bat_MW := None; Crude_MW := None; Other_MW := None; tech_desc := None;
     Source_Desc := None; Period := None; Source := None |}.

Definition no_geometry : Geometry := {| x := None; y := None |}.

(** Attributes that differ from [attrs] in the plant code and name. *)
Definition set_plant (attrs : Attributes) (code : Z) (name : string) : Attributes :=
  {| OBJECTID := OBJECTID attrs; Plant_Code := Some code; Plant_Name := Some name;
     Utility_Name := Utility_Name attrs; Utility_ID := Utility_ID attrs;
     Sector_Name := Sector_Name attrs; PrimSource := PrimSource attrs;
     Latitude := Latitude attrs; Longitude := Longitude attrs; City := City attrs;
     County := County attrs; StateName := StateName attrs; Zip := Zip attrs;
     Street_Address := Street_Address attrs; Total_MW := Total_MW attrs;
     Install_MW := Install_MW attrs; Coal_MW := Coal_MW attrs; NG_MW := NG_MW attrs;
     Nuclear_MW := Nuclear_MW attrs; Hydro_MW := Hydro_MW attrs;
     HydroPS_MW := HydroPS_MW attrs; Solar_MW := Solar_MW attrs;
     Wind_MW := Wind_MW attrs; Geo_MW := Geo_MW attrs; Bio_MW := Bio_MW attrs;
     Bat_MW := Bat_MW attrs; Crude_MW := Crude_MW attrs; Other_MW := Other_MW attrs;
     tech_desc := tech_desc attrs; Source_Desc := Source_Desc attrs;
     Period := Period attrs; Source := Source attrs |}.

(** The decoded body of one page, a JSON object as the annotation
    [Dict[str, Any]] of [_make_request] has it.  Its features are objects
    whose members are objects or absent.  [error] is what the key [error]
    holds when the body has it: an object, given by its [message] if it
    has one, or another JSON value. *)
Record Data : Type := {
  objectIdFieldName : option string;
  geometryType : option string;
  spatialReference : option (gmap string Z);
  fields : option (list (gmap string string));
  features : option (list Feature);
  exceededTransferLimit : option bool;
  error : option (held (option string))
}.

End Wire.

(** [@dataclass PowerPlantLocation] *)
Record PowerPlantLocation : Type := {
  latitude : float;
  longitude : float;
  city : string;
  county : string;
  state : string;
  zip_code : option Z;
  street_address : option string
}.

(** [@dataclass PowerPlantCapacity] *)
Record PowerPlantCapacity : Type := {
  total_mw : option float;
  install_mw : option float;
  coal_mw : option float;
  natural_gas_mw : option float;
  nuclear_mw : option float;
  hydro_mw : option float;
  hydro_pumped_mw : option float;
  solar_mw : option float;
  wind_mw : option float;
  geothermal_mw : option float;
  biomass_mw : option float;
  battery_mw : option float;
  crude_oil_mw : option float;
  other_mw : option float
}.

(** [@dataclass PowerPlant] *)
Record PowerPlant : Type := {
  object_id : Z;
  plant_code : Z;
  plant_name : string;
  utility_name : string;
  utility_id : Z;
  sector_name : string;
  primary_source : string;
  location : PowerPlantLocation;
  capacity : PowerPlantCapacity;
  tech_desc : option string;
  source_desc : option string;
  data_period : option Z;
  source : option string
}.

(** The property [PowerPlant.primary_energy_type]. *)
Definition primary_energy_type (plant : PowerPlant) : EnergyType :=
  classify (primary_source plant).

(** The property [PowerPlant.is_renewable]. *)
Definition is_renewable (plant : PowerPlant) : bool :=
  bool_decide (primary_energy_type plant ∈ renewable_types).

(** [@dataclass PowerPlantQueryParams], with its field defaults. *)
Record PowerPlantQueryParams : Type := {
  where_clause : string;
  out_fields : string;
  out_sr : Z;
  result_record_count : option Z;
  result_offset : option Z;
  order_by_fields : option string;
  return_geometry : bool;
  f : string
}.

Definition default_query_params : PowerPlantQueryParams :=
  {| where_clause := "1=1"; out_fields := "*"; out_sr := 4326;
     result_record_count := None; result_offset := None;
     order_by_fields := None; return_geometry := true; f := "json" |}.

(** A value of the request dict: a string or an integer. *)
Inductive param : Type := PStr (s : string) | PInt (n : Z).

#[export] Instance param_eq_dec : EqDecision param.
Proof. solve_decision. Defined.

(** [str(b).lower()] *)
Definition str_bool_lower (b : bool) : string :=
  if b then "true" else "false".

(** [params[key] = v] when the optional field is not [None]. *)
Definition set_if_some {A} (key : string) (inj : A -> param) (field : option A)
    (params : gmap string param) : gmap string param :=
  match field with
  | Some v => <[key := inj v]> params
  | None => params
  end.

(** [PowerPlantQueryParams.to_dict] *)
Definition to_dict (self : PowerPlantQueryParams) : gmap string param :=
  let params : gmap string param :=
    <["f" := PStr (f self)]>
    (<["returnGeometry" := PStr (str_bool_lower (return_geometry self))]>
    (<["outSR" := PInt (out_sr self)]>
    (<["outFields" := PStr (out_fields self)]>
    (<["where" := PStr (where_clause self)]> ∅)))) in
  let params := set_if_some "resultRecordCount" PInt (result_record_count self) params in
  let params := set_if_some "resultOffset" PInt (result_offset self) params in
  let params := set_if_some "orderByFields" PStr (order_by_fields self) params in
  params.

(** The keys [to_dict] can set. *)
Definition request_keys : list string :=
  ["where"; "outFields"; "outSR"; "returnGeometry"; "f"; "resultRecordCount";
   "resultOffset"; "orderByFields"].

(** [@dataclass EIAAtlasResponse] *)
Record EIAAtlasResponse : Type := {
  object_id_field_name : string;
  geometry_type : string;
  spatial_reference : gmap string Z;
  fields : list (gmap string string);
  features : list Wire.Feature;
  exceeded_transfer_limit : bool
}.

(** [EIAAtlasResponse.from_dict] *)
Definition from_dict (data : Wire.Data) : EIAAtlasResponse :=
  {| object_id_field_name := default "" (Wire.objectIdFieldName data);
     geometry_type := default "" (Wire.geometryType data);
     spatial_reference := default ∅ (Wire.spatialReference data);
     fields := default [] (Wire.fields data);
     features := default [] (Wire.features data);
     exceeded_transfer_limit := default false (Wire.exceededTransferLimit data) |}.

End Models.

(** ** eia_atlas_client.py *)

Module EIAAtlasClient.
Import Models.

(** What the code can raise. *)
Inductive exn : Type :=
| ValueError (msg : string)
| RequestException (msg : string)
| AttributeError (msg : string).

Inductive result (A : Type) : Type :=
| Ok (a : A)
| Raise (e : exn).
Arguments Ok {A} a.
Arguments Raise {A} e.

(** What [session.get(...)], [raise_for_status()] and [response.json()]
    can come to, for one request: a [requests.RequestException], a
    [ValueError] that is no [RequestException], or the decoded body.  A
    body that does not decode is of the second kind with the versions of
    [requests] whose [json()] raises the decoder's [ValueError], and of the
    first kind with those (2.27 and later) whose [json()] raises a
    [RequestException] of its own. *)
Inductive reply : Type :=
| RequestFailed (msg : string)
| NotJson (msg : string)
| Body (data : Wire.Data).

(** The client object: its timeout and its HTTP session, the latter as
    the answer the service gives to each URL and parameter dict. *)
Record client : Type := {
  timeout : Z;
  session_get : string -> gmap string param -> reply
}.

Definition BASE_URL : string :=
  "https://services7.arcgis.com/FGr1D95XCGALKXqM/ArcGIS/rest/services".

(** The class attribute [SERVICES]. *)
Definition SERVICES : gmap string string :=
  list_to_map
    [ ("all_plants", "ElectricPowerPlants/FeatureServer/0");
      ("coal_plants", "Coal_Power_Plants/FeatureServer/0");
      ("natural_gas_plants", "Natural_Gas_Power_Plants/FeatureServer/0");
      ("nuclear_plants", "Nuclear_Power_Plants/FeatureServer/0");
      ("hydro_plants", "Hydroelectric_Power_Plants/FeatureServer/0");
      ("hydro_pumped_plants", "Hydro_Pumped_Storage_Power_Plants/FeatureServer/0");
      ("solar_plants", "Solar_Power_Plants/FeatureServer/0");
      ("wind_plants", "Wind_Power_Plants/FeatureServer/0");
      ("geothermal_plants", "Geothermal_Power_Plants/FeatureServer/0");
      ("battery_plants", "Battery_Storage_Plants/FeatureServer/0");
      ("petroleum_plants", "Petroleum_Power_Plants/FeatureServer/0");
      ("other_plants", "Other_Power_Plants/FeatureServer/0") ].

Definition _build_url (service_path : string) : string :=
  (BASE_URL ++ "/" ++ service_path ++ "/query")%string.

(** The attribute lookup [v.get] on what a key holds: an object has the
    method, any other JSON value raises [AttributeError]. *)
Definition get_of {A} (v : Wire.held A) : result A :=
  match v with
  | Wire.Object a => Ok a
  | Wire.Other o =>
      Raise (AttributeError
               ("'" ++ Wire.type_name o ++ "' object has no attribute 'get'")%string)
  end.

(** [_make_request]: the request itself, the check for an [error] key,
    and the two [except] clauses (both end in a [RequestException]).  The
    [AttributeError] of [data['error'].get] on an [error] that is no object
    is neither a [RequestException] nor a [ValueError] and passes both. *)
Definition _make_request (self : client) (url : string)
    (params : gmap string param) : result Wire.Data :=
  match session_get self url params with
  | RequestFailed msg => Raise (RequestException msg)
  | NotJson msg => Raise (RequestException ("Invalid JSON response: " ++ msg)%string)
  | Body data =>
      match Wire.error data with
      | Some error =>
          match get_of error with
          | Ok message =>
              Raise (RequestException
                       ("API Error: " ++ default "Unknown API error" message)%string)
          | Raise e => Raise e
          end
      | None => Ok data
      end
  end.

(** [_parse_feature_to_power_plant] on a feature whose members are
    objects or absent; [d.get(k, v)] is [default v (k d)] and [d.get(k)] is
    the optional field itself. *)
Definition _parse_feature_to_power_plant (feature : Wire.Feature) : PowerPlant :=
  let attrs := default Wire.no_attributes (Wire.attributes feature) in
  let geom := default Wire.no_geometry (Wire.geometry feature) in
  let location :=
    {| latitude := default (default 0%float (Wire.Latitude attrs)) (Wire.y geom);
       longitude := default (default 0%float (Wire.Longitude attrs)) (Wire.x geom);
       city := default "" (Wire.City attrs);
       county := default "" (Wire.County attrs);
       state := default "" (Wire.StateName attrs);
       zip_code := Wire.Zip attrs;
       street_address := Wire.Street_Address attrs |} in
  let capacity :=
    {| total_mw := Wire.Total_MW attrs;
       install_mw := Wire.Install_MW attrs;
       coal_mw := Wire.Coal_MW attrs;
       natural_gas_mw := Wire.NG_MW attrs;
       nuclear_mw := Wire.Nuclear_MW attrs;
       hydro_mw := Wire.Hydro_MW attrs;
       hydro_pumped_mw := Wire.HydroPS_MW attrs;
       solar_mw := Wire.Solar_MW attrs;
       wind_mw := Wire.Wind_MW attrs;
       geothermal_mw := Wire.Geo_MW attrs;
       biomass_mw := Wire.Bio_MW attrs;
       battery_mw := Wire.Bat_MW attrs;
       crude_oil_mw := Wire.Crude_MW attrs;
       other_mw := Wire.Other_MW attrs |} in
  {| object_id := default 0 (Wire.OBJECTID attrs);
     plant_code := default 0 (Wire.Plant_Code attrs);
     plant_name := default "" (Wire.Plant_Name attrs);
     utility_name := default "" (Wire.Utility_Name attrs);
     utility_id := default 0 (Wire.Utility_ID attrs);
     sector_name := default "" (Wire.Sector_Name attrs);
     primary_source := default "" (Wire.PrimSource attrs);
     location := location;
     capacity := capacity;
     tech_desc := Wire.tech_desc attrs;
     source_desc := Wire.Source_Desc attrs;
     data_period := Wire.Period attrs;
     source := Wire.Source attrs |}.

(** [_parse_feature_to_power_plant] on a raw feature.
    [feature.get(key, {})] is [{}] for an absent key and whatever the key
    holds for a present one; the first [.get] on it, [geom.get] before
    [attrs.get], raises [AttributeError] if that is no object.  On two
    objects the plant is the one above. *)
Definition _parse_feature_to_power_plant_raw (feature : Wire.RawFeature)
  : result PowerPlant :=
  let attrs := default (Wire.Object Wire.no_attributes) (Wire.raw_attributes feature) in
  let geom := default (Wire.Object Wire.no_geometry) (Wire.raw_geometry feature) in
  match get_of geom with
  | Raise e => Raise e
  | Ok geom =>
      match get_of attrs with
      | Raise e => Raise e
      | Ok attrs =>
          Ok (_parse_feature_to_power_plant
                {| Wire.attributes := Some attrs; Wire.geometry := Some geom |})
      end
  end.

(** A raw feature that gives no coordinates: no geometry object with a
    [y] or an [x], no attributes with a [Latitude] or a [Longitude]. *)
Definition no_coordinates (feature : Wire.RawFeature) : Prop :=
  match Wire.raw_geometry feature with
  | Some (Wire.Object geom) => Wire.y geom = None /\ Wire.x geom = None
  | _ => True
  end
  /\ match Wire.raw_attributes feature with
     | Some (Wire.Object attrs) =>
         Wire.Latitude attrs = None /\ Wire.Longitude attrs = None
     | _ => True
     end.

(** A raw feature whose members [attributes] and [geometry] are each
    absent or an object. *)
Definition members_are_objects (feature : Wire.RawFeature) : bool :=
  match Wire.raw_geometry feature, Wire.raw_attributes feature with
  | Some (Wire.Other _), _ | _, Some (Wire.Other _) => false
  | _, _ => true
  end.

(** The objects of class [PowerPlantQueryParams] alive around a call, by
    identity.  A caller passes a reference; what the callee assigns to a
    field is seen by every holder of the reference. *)
Abbreviation store := (gmap nat PowerPlantQueryParams).

#[export] Instance PowerPlantQueryParams_inhabited : Inhabited PowerPlantQueryParams :=
  populate default_query_params.

(** [if limit:] on an [Optional[int]]: neither [None] nor [0]. *)
Definition truthy (limit : option Z) : bool :=
  match limit with
  | Some n => negb (n =? 0)%Z
  | None => false
  end.

(** [len(xs)] *)
Definition len {A} (xs : list A) : Z := Z.of_nat (length xs).

(** [xs[:n]]: the first [n] items, or all but the last [-n] for [n < 0]. *)
Definition slice_to {A} (n : Z) (xs : list A) : list A :=
  if (0 <=? n)%Z then take (Z.to_nat n) xs
  else take (length xs - Z.to_nat (- n))%nat xs.

(** [query_params.result_record_count = limit] *)
Definition set_result_record_count (limit : option Z)
    (q : PowerPlantQueryParams) : PowerPlantQueryParams :=
  {| where_clause := where_clause q; out_fields := out_fields q;
     out_sr := out_sr q; result_record_count := limit;
     result_offset := result_offset q; order_by_fields := order_by_fields q;
     return_geometry := return_geometry q; f := f q |}.

(** [query_params.result_record_count or 1000] *)
Definition batch_size_of (q : PowerPlantQueryParams) : Z :=
  match result_record_count q with
  | Some n => if (n =? 0)%Z then 1000 else n
  | None => 1000
  end.

(** The two variables the loop of [get_power_plants] carries. *)
Record loop_state : Type := {
  all_plants : list PowerPlant;
  offset : Z
}.

(** How one pass through the loop body ends. *)
Inductive step : Type :=
| Continue (st : loop_state)
| Break (plants : list PowerPlant)
| Abort (e : exn).

(** One request of the loop with what came back. *)
Record exchange : Type := {
  sent : gmap string param;
  got : result Wire.Data
}.

(** How a call ends; [OutOfFuel] is the embedding's, not Python's. *)
Inductive outcome : Type :=
| Returned (plants : list PowerPlant)
| Raised (e : exn)
| OutOfFuel.

(** [current_params] of one pass: a copy of [params] with the offset set,
    and the page size set when [params] has none. *)
Definition current_params (params : gmap string param) (batch_size offset : Z)
  : gmap string param :=
  let current := <["resultOffset" := PInt offset]> params in
  match current !! "resultRecordCount" with
  | Some _ => current
  | None => <["resultRecordCount" := PInt batch_size]> current
  end.

(** The loop body after [response = EIAAtlasResponse.from_dict(data)].
    The features of a [Wire.Data] have members that are objects or absent,
    so the parser raises nothing here. *)
Definition after_response (limit : option Z) (batch_size : Z)
    (st : loop_state) (response : EIAAtlasResponse) : step :=
  match features response with
  | [] => Break (all_plants st)
  | _ :: _ =>
      let batch_plants := map _parse_feature_to_power_plant (features response) in
      let all_plants := all_plants st ++ batch_plants in
      if truthy limit && (default 0 limit <=? len all_plants)%Z
      then Break (slice_to (default 0 limit) all_plants)
      else if (len (features response) <? batch_size)%Z
              || exceeded_transfer_limit response
      then Break all_plants
      else Continue {| all_plants := all_plants;
                       offset := offset st + len (features response) |}
  end.

(** One pass through the loop body. *)
Definition iteration (self : client) (url : string) (params : gmap string param)
    (limit : option Z) (batch_size : Z) (st : loop_state) : exchange * step :=
  let current := current_params params batch_size (offset st) in
  let data := _make_request self url current in
  ({| sent := current; got := data |},
   match data with
   | Raise e => Abort e
   | Ok data => after_response limit batch_size st (from_dict data)
   end).

(** [while True: ...], for at most [fuel] passes, with the requests made. *)
Fixpoint loop (fuel : nat) (self : client) (url : string)
    (params : gmap string param) (limit : option Z) (batch_size : Z)
    (st : loop_state) : list exchange * outcome :=
  match fuel with
  | O => ([], OutOfFuel)
  | S fuel' =>
      let '(ex, s) := iteration self url params limit batch_size st in
      match s with
      | Continue st' =>
          let '(log, out) := loop fuel' self url params limit batch_size st' in
          (ex :: log, out)
      | Break plants => ([ex], Returned plants)
      | Abort e => ([ex], Raised e)
      end
  end.

(** The object [query_params] names after the [if query_params is None]
    statement: the caller's, or a new one with the defaults. *)
Definition resolve_query_params (h : store) (query_params : option nat)
  : store * nat :=
  match query_params with
  | Some l => (h, l)
  | None => let l := fresh (dom h) in (<[l := default_query_params]> h, l)
  end.

(** [list(self.SERVICES.keys())] as an f-string prints it. *)
Definition available_services : string :=
  "['all_plants', 'coal_plants', 'natural_gas_plants', 'nuclear_plants', 'hydro_plants', 'hydro_pumped_plants', 'solar_plants', 'wind_plants', 'geothermal_plants', 'battery_plants', 'petroleum_plants', 'other_plants']".

(** [get_power_plants]: the store after the call, the requests made and
    how the call ended. *)
Definition get_power_plants (self : client) (h : store) (service : string)
    (query_params : option nat) (limit : option Z) (fuel : nat)
  : store * (list exchange * outcome) :=
  match SERVICES !! service with
  | None =>
      (h, ([], Raised (ValueError ("Unknown service: " ++ service
                                   ++ ". Available: " ++ available_services)%string)))
  | Some service_path =>
      let '(h, l) := resolve_query_params h query_params in
      let h :=
        if truthy limit
        then <[l := set_result_record_count limit (h !!! l)]> h
        else h in
      let url := _build_url service_path in
      let params := to_dict (h !!! l) in
      let batch_size := batch_size_of (h !!! l) in
      (h, loop fuel self url params limit batch_size
               {| all_plants := []; offset := 0 |})
  end.

(** The dict literal [service_mapping] of [get_plants_by_energy_type]. *)
Definition service_mapping : list (EnergyType * string) :=
  [ (COAL, "coal_plants");
    (NATURAL_GAS, "natural_gas_plants");
    (NUCLEAR, "nuclear_plants");
    (HYDRO, "hydro_plants");
    (SOLAR, "solar_plants");
    (WIND, "wind_plants");
    (GEOTHERMAL, "geothermal_plants");
    (BATTERY, "battery_plants");
    (CRUDE_OIL, "petroleum_plants");
    (OTHER, "other_plants") ].

(** [d[k]] for a dict given by its items; [None] when [k not in d]. *)
Fixpoint dict_get {K V} `{EqDecision K} (d : list (K * V)) (k : K) : option V :=
  match d with
  | [] => None
  | (k', v) :: d' => if decide (k' = k) then Some v else dict_get d' k
  end.

(** [get_plants_by_energy_type] *)
Definition get_plants_by_energy_type (self : client) (h : store)
    (energy_type : EnergyType) (limit : option Z) (fuel : nat)
  : store * (list exchange * outcome) :=
  match dict_get service_mapping energy_type with
  | Some service => get_power_plants self h service None limit fuel
  | None =>
      let '(h, (log, out)) := get_power_plants self h "all_plants" None limit fuel in
      (h, (log,
           match out with
           | Returned all_plants =>
               Returned (filter (fun plant => primary_energy_type plant = energy_type)
                                all_plants)
           | _ => out
           end))
  end.



End EIAAtlasClient.

(** ** scripts/export_comprehensive_data.py: the duplicate removal *)

Module ExportComprehensive.
Import Models.

(** The loop body: [plant_code = plant.plant_code], then
    [unique_plants[plant_code] = plant] if the key is new.  The dict is
    kept by its items in insertion order; a new key goes last. *)
Definition remember (unique_plants : list (Z * PowerPlant)) (plant : PowerPlant)
  : list (Z * PowerPlant) :=
  let plant_code := plant_code plant in
  match EIAAtlasClient.dict_get unique_plants plant_code with
  | None => unique_plants ++ [(plant_code, plant)]
  | Some _ => unique_plants
  end.

(** [unique_plants] after [for plant in all_plants: ...]. *)
Definition unique_plants (all_plants : list PowerPlant) : list (Z * PowerPlant) :=
  fold_left remember all_plants [].

(** [final_plants = list(unique_plants.values())] *)
Definition final_plants (all_plants : list PowerPlant) : list PowerPlant :=
  map snd (unique_plants all_plants).

(** Every item of the dict is filed under the code of its plant. *)
Definition filed_by_code (d : list (Z * PowerPlant)) : Prop :=
  Forall (fun item => plant_code (snd item) = fst item) d.

(** The first record of [plants] with the given plant code. *)
Definition first_with_code (code : Z) (plants : list PowerPlant) : option PowerPlant :=
  find (fun plant => plant_code plant =? code) plants.

(** How many records of [plants] have the given plant code. *)
Definition count_code (code : Z) (plants : list PowerPlant) : nat :=
  length (filter (fun plant => plant_code plant = code) plants).

End ExportComprehensive.

(** ** filters.py: [DataAggregator.calculate_renewable_percentage] *)

Module DataAggregator.






End DataAggregator.

(** ** Services to run the client against *)

Module Scenarios.
Import Models EIAAtlasClient.

(** A feature with the given primary source and nothing else. *)
Definition feature_of (prim_source : string) : Wire.Feature :=
  {| Wire.attributes :=
       Some {| Wire.OBJECTID := None; Wire.Plant_Code := None;
               Wire.Plant_Name := None; Wire.Utility_Name := None;
               Wire.Utility_ID := None; Wire.Sector_Name := None;
               Wire.PrimSource := Some prim_source; Wire.Latitude := None;
               Wire.Longitude := None; Wire.City := None; Wire.County := None;
               Wire.StateName := None; Wire.Zip := None;
               Wire.Street_Address := None; Wire.Total_MW := None;
               Wire.Install_MW := None; Wire.Coal_MW := None; Wire.NG_MW := None;
               Wire.Nuclear_MW := None; Wire.Hydro_MW := None;
               Wire.HydroPS_MW := None; Wire.Solar_MW := None;
               Wire.Wind_MW := None; Wire.Geo_MW := None; Wire.Bio_MW := None;
               Wire.Bat_MW := None; Wire.Crude_MW := None; Wire.Other_MW := None;
               Wire.tech_desc := None; Wire.Source_Desc := None;
               Wire.Period := None; Wire.Source := None |};
     Wire.geometry := None |}.

(** A page body with the given features and transfer-limit flag. *)
Definition page (features : list Wire.Feature) (exceeded : bool) : Wire.Data :=
  {| Wire.objectIdFieldName := Some "OBJECTID";
     Wire.geometryType := Some "esriGeometryPoint";
     Wire.spatialReference := None;
     Wire.fields := None;
     Wire.features := Some features;
     Wire.exceededTransferLimit := Some exceeded;
     Wire.error := None |}.

(** The [resultOffset] a request carries. *)
Definition offset_of (params : gmap string param) : Z :=
  match params !! "resultOffset" with
  | Some (PInt o) => o
  | _ => 0
  end.

(** A service that answers the request at offset 0 with [n] features and
    the given flag, and every later request with three features more,
    flag off. *)
Definition first_page_of (n : nat) (exceeded : bool) : client :=
  {| timeout := 30;
     session_get := fun _ params =>
       if offset_of params =? 0
       then Body (page (replicate n (feature_of "Solar")) exceeded)
       else Body (page (replicate 3 (feature_of "Wind")) false) |}.

(** A service that answers every request with a page of five features. *)
Definition pages_of_five (exceeded : bool) : client :=
  {| timeout := 30;
     session_get := fun _ _ =>
       Body (page (replicate 5 (feature_of "Solar")) exceeded) |}.

(** A service that sends three features per page up to offset 6, however
    many are asked for, and nothing from there on. *)
Definition three_per_page : client :=
  {| timeout := 30;
     session_get := fun _ params =>
       if offset_of params <? 6
       then Body (page (replicate 3 (feature_of "Wind")) false)
       else Body (page [] false) |}.

(** Query parameters that ask for pages of two. *)
Definition pages_of_two : PowerPlantQueryParams :=
  set_result_record_count (Some 2) default_query_params.

(** The offsets the requests of a call carry. *)
Definition offsets (log : list exchange) : list Z :=
  map (fun ex => offset_of (sent ex)) log.


(** A service whose pages hold a biomass plant between two others. *)
Definition mixed_plants : client :=
  {| timeout := 30;
     session_get := fun _ _ =>
       Body (page [feature_of "Coal"; feature_of "Wood/Biomass"; feature_of "Wind"]
                  false) |}.

(** The service answers every request with a page of [n] features and
    the transfer-limit flag off. *)
Definition serves_pages_of (self : client) (n : nat) : Prop :=
  forall url params, exists data,
    session_get self url params = Body data
    /\ Wire.error data = None
    /\ length (features (from_dict data)) = n
    /\ exceeded_transfer_limit (from_dict data) = false.

(** The requests of a call and how it ended. *)
Definition requests (r : store * (list exchange * outcome)) : list exchange :=
  fst (snd r).

Definition ended (r : store * (list exchange * outcome)) : outcome :=
  snd (snd r).

(** The number of plants a call returned, if it returned. *)
Definition returned_count (r : store * (list exchange * outcome)) : option nat :=
  match ended r with
  | Returned plants => Some (length plants)
  | _ => None
  end.

(** An exchange whose request was answered with a page. *)
Definition answered (ex : exchange) : Prop :=
  match got ex with
  | Ok _ => True
  | Raise _ => False
  end.

(** The plants of the features a run of requests received, in order. *)
Definition received (log : list exchange) : list PowerPlant :=
  flat_map
    (fun ex =>
       match got ex with
       | Ok data => map _parse_feature_to_power_plant (features (from_dict data))
       | Raise _ => []
       end)
    log.

(** The [resultRecordCount] a request carries. *)
Definition count_of (params : gmap string param) : Z :=
  match params !! "resultRecordCount" with
  | Some (PInt c) => c
  | _ => 0
  end.

(** A service that holds [total] records and never sets the transfer-limit
    flag: a request for [c] records from offset [o] on gets the next [c],
    or as many as are left. *)
Definition serves_records (self : client) (total : Z) : Prop :=
  forall url params, exists data,
    session_get self url params = Body data
    /\ Wire.error data = None
    /\ exceeded_transfer_limit (from_dict data) = false
    /\ len (features (from_dict data))
       = Z.max 0 (Z.min (count_of params) (total - offset_of params)).

Definition honest_service (total : Z) : client :=
  {| timeout := 30;
     session_get := fun _ params =>
       Body (page (replicate
                     (Z.to_nat (Z.min (count_of params) (total - offset_of params)))
                     (feature_of "Wind"))
                  false) |}.

(** Every request from offset [n] on is answered with an empty page. *)
Definition exhausted_from (self : client) (n : Z) : Prop :=
  forall url params, n <= offset_of params ->
    exists data,
      session_get self url params = Body data
      /\ Wire.error data = None
      /\ features (from_dict data) = [].

(** A service that answers every request with a page of [n] features. *)
Definition pages_of (n : nat) (exceeded : bool) : client :=
  {| timeout := 30;
     session_get := fun _ _ =>
       Body (page (replicate n (feature_of "Solar")) exceeded) |}.

(** A service that is down. *)
Definition unreachable : client :=
  {| timeout := 30;
     session_get := fun _ _ => RequestFailed "connection refused" |}.

(** A service whose body has a text under [error]:
    [{"error": "boom"}] in JSON. *)
Definition reports_text_error : client :=
  {| timeout := 30;
     session_get := fun _ _ =>
       Body {| Wire.objectIdFieldName := None; Wire.geometryType := None;
               Wire.spatialReference := None; Wire.fields := None;
               Wire.features := None; Wire.exceededTransferLimit := None;
               Wire.error := Some (Wire.Other Wire.Text) |} |}.

(** A service whose body is an error report. *)
Definition reports_error : client :=
  {| timeout := 30;
     session_get := fun _ _ =>
       Body {| Wire.objectIdFieldName := None; Wire.geometryType := None;
               Wire.spatialReference := None; Wire.fields := None;
               Wire.features := None; Wire.exceededTransferLimit := None;
               Wire.error := Some (Wire.Object (Some "Invalid query")) |} |}.

(** While a limit is in force, the plants gathered so far are short of it. *)
Definition short_of_limit (limit : option Z) (st : loop_state) : Prop :=
  truthy limit = true ->
  all_plants st = []
  \/ len (all_plants st) < default 0 limit.

(** What a call returns of a list of plants: all of it, or its slice up to
    the limit. *)
Definition cut (limit : option Z) (plants : list PowerPlant)
  : list PowerPlant :=
  if truthy limit
  then slice_to (default 0 limit) plants else plants.

End Scenarios.

(** ** eia_atlas_client.py: the queries by state and of renewable plants *)

Module EIAAtlasQueries.
Import Models EIAAtlasClient.

(** The f-string of [get_plants_by_state]. *)
Definition state_where_clause (state : string) : string :=
  ("StateName = '" ++ state ++ "' OR StateName LIKE '%" ++ state ++ "%'")%string.

(** [PowerPlantQueryParams(where_clause=where_clause)] *)
Definition query_where (where_clause : string) : PowerPlantQueryParams :=
  {| where_clause := where_clause; out_fields := "*"; out_sr := 4326;
     result_record_count := None; result_offset := None;
     order_by_fields := None; return_geometry := true; f := "json" |}.

(** A new object in the store. *)
Definition alloc (h : store) (q : PowerPlantQueryParams) : store * nat :=
  let l := fresh (dom h) in (<[l := q]> h, l).

(** [get_plants_by_state]; its [service_mapping] is the dict literal of
    [get_plants_by_energy_type] once more, and [if energy_type:] holds for
    every member of the enumeration. *)
Definition get_plants_by_state (self : client) (h : store) (state : string)
    (energy_type : option EnergyType) (limit : option Z) (fuel : nat)
  : store * (list exchange * outcome) :=
  let where_clause := state_where_clause state in
  let '(h, query_params) := alloc h (query_where where_clause) in
  let service :=
    match energy_type with
    | Some energy_type => default "all_plants" (dict_get service_mapping energy_type)
    | None => "all_plants"
    end in
  get_power_plants self h service (Some query_params) limit fuel.

(** The list literal [renewable_types] of [get_renewable_plants]. *)
Definition renewable_types : list EnergyType :=
  [SOLAR; WIND; HYDRO; GEOTHERMAL; BIOMASS].

(** The [for energy_type in renewable_types] loop of
    [get_renewable_plants]: a fetch without limit per type, the plants
    added to [all_renewable], and the [break] once a limit is reached.
    Every fetch has [fuel] passes for its own loop. *)
Fixpoint renewable_loop (self : client) (h : store) (types : list EnergyType)
    (limit : option Z) (fuel : nat) (all_renewable : list PowerPlant)
  : store * (list exchange * outcome) :=
  match types with
  | [] => (h, ([], Returned all_renewable))
  | energy_type :: types' =>
      let '(h, (log, out)) :=
        get_plants_by_energy_type self h energy_type None fuel in
      match out with
      | Returned plants =>
          let all_renewable := all_renewable ++ plants in
          if truthy limit && (default 0 limit <=? len all_renewable)
          then (h, (log, Returned all_renewable))
          else
            let '(h, (log', out')) :=
              renewable_loop self h types' limit fuel all_renewable in
            (h, (log ++ log', out'))
      | _ => (h, (log, out))
      end
  end.

(** [get_renewable_plants] *)
Definition get_renewable_plants (self : client) (h : store) (limit : option Z)
    (fuel : nat) : store * (list exchange * outcome) :=
  let '(h, (log, out)) := renewable_loop self h renewable_types limit fuel [] in
  (h, (log,
       match out with
       | Returned all_renewable =>
           Returned (if truthy limit
                     then slice_to (default 0 limit) all_renewable
                     else all_renewable)
       | _ => out
       end)).

End EIAAtlasQueries.

(** ** filters.py: [PowerPlantFilter], the filters on lists of plants *)

Module PowerPlantFilter.
Import Models.

(** [filter_by_energy_types] *)
Definition filter_by_energy_types (plants : list PowerPlant)
    (energy_types : list EnergyType) : list PowerPlant :=
  filter (fun plant => primary_energy_type plant ∈ energy_types) plants.

(** [filter_by_states] *)
Definition filter_by_states (plants : list PowerPlant) (states : list string)
  : list PowerPlant :=
  let states_lower := map lower states in
  filter (fun plant => lower (state (location plant)) ∈ states_lower) plants.

(** [filter_renewable_only] *)
Definition filter_renewable_only (plants : list PowerPlant) : list PowerPlant :=
  filter (fun plant => is_renewable plant = true) plants.

(** What [getattr(plant.capacity, capacity_type, None)] can be: a
    number, [None] (the field is [None], or there is no such attribute),
    or one of the two methods of the class. *)
Inductive attribute : Type :=
| Number (v : float)
| IsNone
| Method.

(** The fields of [PowerPlantCapacity] by name. *)
Definition capacity_fields : list (string * (PowerPlantCapacity -> option float)) :=
  [ ("total_mw", total_mw); ("install_mw", install_mw); ("coal_mw", coal_mw);
    ("natural_gas_mw", natural_gas_mw); ("nuclear_mw", nuclear_mw);
    ("hydro_mw", hydro_mw); ("hydro_pumped_mw", hydro_pumped_mw);
    ("solar_mw", solar_mw); ("wind_mw", wind_mw);
    ("geothermal_mw", geothermal_mw); ("biomass_mw", biomass_mw);
    ("battery_mw", battery_mw); ("crude_oil_mw", crude_oil_mw);
    ("other_mw", other_mw) ].

Definition capacity_methods : list string :=
  ["get_renewable_capacity"; "get_capacity_by_type"].

(** [getattr(capacity, capacity_type, None)], for the names of the class:
    its fields, its methods, and names it does not have.  The names that
    begin with two underscores, which Python gives every object, are read
    here as names it does not have. *)
Definition getattr_capacity (capacity : PowerPlantCapacity)
    (capacity_type : string) : attribute :=
  match EIAAtlasClient.dict_get capacity_fields capacity_type with
  | Some field =>
      match field capacity with
      | Some v => Number v
      | None => IsNone
      end
  | None =>
      if decide (capacity_type ∈ capacity_methods) then Method else IsNone
  end.

(** What [filter_by_capacity_range] comes to: the list, or the
    [TypeError] of comparing a method with a number. *)
Inductive filtered : Type :=
| Filtered (plants : list PowerPlant)
| TypeError.

(** The loop of [filter_by_capacity_range] over the plants left, with the
    list [filtered] so far. *)
Fixpoint capacity_loop (plants : list PowerPlant)
    (min_capacity max_capacity : option float) (capacity_type : string)
    (kept : list PowerPlant) : filtered :=
  match plants with
  | [] => Filtered kept
  | plant :: plants' =>
      match getattr_capacity (capacity plant) capacity_type with
      | IsNone =>
          capacity_loop plants' min_capacity max_capacity capacity_type kept
      | Number capacity_value =>
          if match min_capacity with
             | Some m => (capacity_value <? m)%float
             | None => false
             end
          then capacity_loop plants' min_capacity max_capacity capacity_type kept
          else if match max_capacity with
                  | Some m => (m <? capacity_value)%float
                  | None => false
                  end
          then capacity_loop plants' min_capacity max_capacity capacity_type kept
          else capacity_loop plants' min_capacity max_capacity capacity_type
                             (kept ++ [plant])
      | Method =>
          match min_capacity, max_capacity with
          | None, None =>
              capacity_loop plants' min_capacity max_capacity capacity_type
                            (kept ++ [plant])
          | _, _ => TypeError
          end
      end
  end.

(** [filter_by_capacity_range] *)
Definition filter_by_capacity_range (plants : list PowerPlant)
    (min_capacity max_capacity : option float) (capacity_type : string)
  : filtered :=
  capacity_loop plants min_capacity max_capacity capacity_type [].

(** A plant whose capacity of the given name is a number that is neither
    below the lower bound nor above the upper one. *)
Definition in_capacity_range (min_capacity max_capacity : option float)
    (capacity_type : string) (plant : PowerPlant) : bool :=
  match getattr_capacity (capacity plant) capacity_type with
  | Number v =>
      negb match min_capacity with Some m => (v <? m)%float | None => false end
      && negb match max_capacity with Some m => (m <? v)%float | None => false end
  | _ => false
  end.

(** The digit of a number below ten. *)
Definition digit_char (d : Z) : ascii := ascii_of_nat (48 + Z.to_nat d).

(** The decimal digits of [n >= 0] in front of [acc], for a number of at
    most [fuel] digits. *)
Fixpoint digits (fuel : nat) (n : Z) (acc : string) : string :=
  match fuel with
  | O => acc
  | S fuel' =>
      let acc := String (digit_char (n mod 10)) acc in
      if n <? 10 then acc else digits fuel' (n / 10) acc
  end.

(** [str(n)] for an [int]: a number has no more decimal digits than
    binary ones. *)
Definition str_int (n : Z) : string :=
  if n <? 0
  then String "-" (digits (S (Z.to_nat (Z.log2 (- n)))) (- n) "")
  else digits (S (Z.to_nat (Z.log2 n))) n "".

(** [s[:k]] *)
Fixpoint str_take (k : nat) (s : string) : string :=
  match k, s with
  | S k', String c s' => String c (str_take k' s')
  | _, _ => EmptyString
  end.

Definition digit_value (c : ascii) : option Z :=
  let n := nat_of_ascii c in
  if ((48 <=? n) && (n <=? 57))%nat then Some (Z.of_nat (n - 48)) else None.

Fixpoint int_digits (s : string) (acc : Z) : option Z :=
  match s with
  | EmptyString => Some acc
  | String c s' =>
      match digit_value c with
      | Some d => int_digits s' (10 * acc + d)
      | None => None
      end
  end.

(** A text of decimal digits only. *)
Fixpoint is_digits (s : string) : bool :=
  match s with
  | EmptyString => true
  | String c s' =>
      match digit_value c with
      | Some _ => is_digits s'
      | None => false
      end
  end.

(** [int(s)] for the texts a slice of [str(n)] can be: decimal digits, a
    minus sign before them or not; [None] is the [ValueError].  (Python
    also reads a plus sign, blanks around the number and underscores
    between digits, none of which [str(n)] has.) *)
Definition int_str (s : string) : option Z :=
  match s with
  | EmptyString => None
  | String "-" EmptyString => None
  | String "-" s' => Z.opp <$> int_digits s' 0
  | _ => int_digits s 0
  end.

(** [int(str(plant.data_period)[:4])] *)
Definition period_year (data_period : Z) : option Z :=
  int_str (str_take 4 (str_int data_period)).

(** [bound is not None and value < bound] *)
Definition below (bound : option Z) (value : Z) : bool :=
  match bound with
  | Some b => value <? b
  | None => false
  end.

(** [bound is not None and value > bound] *)
Definition above (bound : option Z) (value : Z) : bool :=
  match bound with
  | Some b => b <? value
  | None => false
  end.

(** Whether the loop body of [filter_by_data_period] reaches
    [filtered.append(plant)]. *)
Definition period_passes (min_year max_year min_period max_period : option Z)
    (plant : PowerPlant) : bool :=
  match data_period plant with
  | None => false
  | Some data_period =>
      match period_year data_period with
      | None => false
      | Some period_year =>
          negb (below min_year period_year)
          && negb (above max_year period_year)
          && negb (below min_period data_period)
          && negb (above max_period data_period)
      end
  end.

(** A plant with a data period of at least [bound]. *)
Definition period_at_least (bound : Z) (plant : PowerPlant) : bool :=
  match data_period plant with
  | Some data_period => bound <=? data_period
  | None => false
  end.

(** [filter_by_data_period] *)
Definition filter_by_data_period (plants : list PowerPlant)
    (min_year max_year min_period max_period : option Z) : list PowerPlant :=
  filter
    (fun plant =>
       period_passes min_year max_year min_period max_period plant = true)
    plants.

(** [filter_after_2024] *)
Definition filter_after_2024 (plants : list PowerPlant) : list PowerPlant :=
  filter_by_data_period plants (Some 2024) None None None.

(** A plant with the given code, state, primary source and data period,
    and nothing else. *)
Definition plant_with (code : Z) (state : string) (prim_source : string)
    (period : option Z) : PowerPlant :=
  {| object_id := 0; plant_code := code; plant_name := ""; utility_name := "";
     utility_id := 0; sector_name := ""; primary_source := prim_source;
     location := {| latitude := 0; longitude := 0; city := ""; county := "";
                    state := state; zip_code := None; street_address := None |};
     capacity := {| total_mw := None; install_mw := None; coal_mw := None;
                    natural_gas_mw := None; nuclear_mw := None; hydro_mw := None;
                    hydro_pumped_mw := None; solar_mw := None; wind_mw := None;
                    geothermal_mw := None; biomass_mw := None; battery_mw := None;
                    crude_oil_mw := None; other_mw := None |};
     tech_desc := None; source_desc := None; data_period := period;
     source := None |}.

End PowerPlantFilter.

(** ** The fetch loops of the export scripts *)

Module ExportScripts.
Import Models EIAAtlasClient.

(** The loop [for service_key, service_name, limit in services_config] of
    [export_mixed_data], which is also the loop of
    [export_comprehensive_data] with 1000 for every limit: a failed fetch is
    logged and passed over, the plants of the others are gathered. *)
Fixpoint fetch_each (self : client) (h : store)
    (services_config : list (string * string * Z)) (fuel : nat)
    (all_plants : list PowerPlant) : store * (list exchange * outcome) :=
  match services_config with
  | [] => (h, ([], Returned all_plants))
  | (service_key, service_name, limit) :: rest =>
      let '(h, (log, out)) :=
        get_power_plants self h service_key None (Some limit) fuel in
      match out with
      | OutOfFuel => (h, (log, OutOfFuel))
      | _ =>
          let all_plants :=
            match out with
            | Returned plants => all_plants ++ plants
            | _ => all_plants
            end in
          let '(h, (log', out')) := fetch_each self h rest fuel all_plants in
          (h, (log ++ log', out'))
      end
  end.

(** [services_config] of [export_mixed_data]. *)
Definition services_config : list (string * string * Z) :=
  [ ("solar_plants", "Solar Plants", 200);
    ("wind_plants", "Wind Plants", 200);
    ("hydro_plants", "Hydro Plants", 200);
    ("nuclear_plants", "Nuclear Plants", 50);
    ("natural_gas_plants", "Natural Gas Plants", 200);
    ("coal_plants", "Coal Plants", 100);
    ("geothermal_plants", "Geothermal Plants", 50);
    ("battery_plants", "Battery Storage", 100) ].

(** [services_to_fetch] of [export_comprehensive_data]. *)
Definition services_to_fetch : list (string * string) :=
  [ ("all_plants", "All Plants");
    ("solar_plants", "Solar Plants");
    ("wind_plants", "Wind Plants");
    ("hydro_plants", "Hydro Plants");
    ("nuclear_plants", "Nuclear Plants");
    ("natural_gas_plants", "Natural Gas Plants");
    ("coal_plants", "Coal Plants");
    ("geothermal_plants", "Geothermal Plants");
    ("battery_plants", "Battery Storage") ].

(** [export_comprehensive_data] up to [final_plants]: the fetches with
    [limit=1000], then the duplicate removal. *)
Definition comprehensive_final_plants (self : client) (h : store) (fuel : nat)
  : store * (list exchange * outcome) :=
  let config := map (fun '(service_key, service_name) =>
                       (service_key, service_name, 1000)) services_to_fetch in
  let '(h, (log, out)) := fetch_each self h config fuel [] in
  (h, (log,
       match out with
       | Returned all_plants => Returned (ExportComprehensive.final_plants all_plants)
       | _ => out
       end)).

(** [export_mixed_data] up to [all_plants]. *)
Definition mixed_all_plants (self : client) (h : store) (fuel : nat)
  : store * (list exchange * outcome) :=
  fetch_each self h services_config fuel [].

(** The sum of the limits of a configuration. *)
Definition total_limit (services_config : list (string * string * Z)) : Z :=
  fold_right (fun '(_, _, limit) sum => limit + sum) 0 services_config.

End ExportScripts.

(** * Properties *)

(** ** The energy classifier *)

Section Classifier.
Import Models.

Lemma first_match_split (pre post : list (string * EnergyType))
    (key : string) (t : EnergyType) (text : string) :
  (forall k' t', In (k', t') pre -> contains text k' = false) ->
  contains text key = true ->
  first_match (pre ++ (key, t) :: post) text = t.
Proof.
  intros Hpre Hkey. induction pre as [|[k' t'] pre IH]; simpl.
  - now rewrite Hkey.
  - rewrite (Hpre k' t') by now left.
    apply IH. intros k'' t'' Hin. apply (Hpre k'' t''). now right.
Qed.

Lemma first_match_none (items : list (string * EnergyType)) (text : string) :
  (forall k t, In (k, t) items -> contains text k = false) ->
  first_match items text = OTHER.
Proof.
  induction items as [|[k t] items IH]; intros Hno; simpl; [reflexivity|].
  rewrite (Hno k t) by now left.
  apply IH. intros k' t' Hin. apply (Hno k' t'). now right.
Qed.

Lemma starts_with_iff (text key : string) :
  starts_with text key = true <-> exists after, text = (key ++ after)%string.
Proof.
  revert text. induction key as [|c key IH]; intros text; simpl.
  - destruct text; (split; [intros _; eexists; reflexivity | reflexivity]).
  - destruct text as [|d text]; [split; [discriminate | intros [a Ha]; discriminate]|].
    simpl. rewrite andb_true_iff, Ascii.eqb_eq, IH. split.
    + intros [-> [a ->]]. now exists a.
    + intros [a Ha]. injection Ha as -> ->. split; [reflexivity | now exists a].
Qed.

(** [contains] decides the substring relation. *)
Lemma contains_substring_of (text key : string) :
  contains text key = true <-> substring_of key text.
Proof.
  induction text as [|d text IH]; cbn [contains].
  - rewrite orb_false_r, starts_with_iff. split.
    + intros [a Ha]. now exists EmptyString, a.
    + intros [[|b before] [a Ha]]; [now exists a|discriminate].
  - rewrite orb_true_iff, starts_with_iff, IH. split.
    + intros [[a Ha]|[b [a Ha]]].
      * now exists EmptyString, a.
      * exists (String d b), a. simpl. now rewrite Ha.
    + intros [[|b before] [a Ha]].
      * left. now exists a.
      * right. exists before, a. simpl in Ha. now injection Ha.
Qed.

Lemma contains_not_substring_of (text key : string) :
  contains text key = false <-> ~ substring_of key text.
Proof.
  rewrite <- contains_substring_of. destruct (contains text key); split; congruence.
Qed.

(** C6. The energy type of a plant is a total function of its primary
    source alone: [classify] lower-cases the source and returns the type of
    the first keyword of the ordered table that is a substring of it (two
    sources equal up to case get the same type), and [OTHER] when no
    keyword is a substring; "Hydro Pumped Storage" and "Hydroelectric" are
    both [HYDRO]. *)
Theorem classify_first_keyword_wins :
  (forall plant, primary_energy_type plant = classify (primary_source plant))
  /\ (forall source pre key t post,
        source_mapping = pre ++ (key, t) :: post ->
        substring_of key (lower source) ->
        (forall key' t', In (key', t') pre -> ~ substring_of key' (lower source)) ->
        classify source = t)
  /\ (forall source,
        (forall key t, In (key, t) source_mapping -> ~ substring_of key (lower source)) ->
        classify source = OTHER)
  /\ (forall source source', lower source = lower source' ->
        classify source = classify source')
  /\ classify "Hydro Pumped Storage" = HYDRO
  /\ classify "Hydroelectric" = HYDRO.
Proof.
  repeat split.
  - intros source pre key t post Htab Hkey Hpre. unfold classify. rewrite Htab.
    apply first_match_split.
    + intros k' t' Hin. apply contains_not_substring_of. eauto.
    + now apply contains_substring_of.
  - intros source Hno. unfold classify. apply first_match_none.
    intros k t Hin. apply contains_not_substring_of. eauto.
  - intros source source' Heq. unfold classify. now rewrite Heq.
Qed.

(** The table at work on a source in capitals with two keywords in it:
    "natural gas" stands before "petroleum", so it wins. *)
Lemma classify_first_keyword_wins_witness :
  classify "PETROLEUM / NATURAL GAS" = NATURAL_GAS.
Proof.
  apply (proj1 (proj2 classify_first_keyword_wins)
           "PETROLEUM / NATURAL GAS" [("coal", COAL)] "natural gas" NATURAL_GAS
           (skipn 2 source_mapping)).
  - reflexivity.
  - now exists "petroleum / ", "".
  - intros key' t' [Heq|[]]. injection Heq as <- <-.
    apply contains_not_substring_of. reflexivity.
Defined.

(** C9. Classifying the label of each of the ten types that a keyword
    reaches gives the type back. *)
Theorem classify_value_round_trip (t : EnergyType) :
  In t keyword_reachable -> classify (value t) = t.
Proof.
  unfold keyword_reachable. simpl.
  intros [<-|[<-|[<-|[<-|[<-|[<-|[<-|[<-|[<-|[<-|[]]]]]]]]]]]; reflexivity.
Qed.

Lemma classify_value_round_trip_witness :
  In BATTERY keyword_reachable /\ classify (value BATTERY) = BATTERY.
Proof.
  assert (H : In BATTERY keyword_reachable) by (simpl; tauto).
  split; [exact H | exact (classify_value_round_trip BATTERY H)].
Defined.

(** The two remaining types: the label of [HYDRO_PUMPED] holds the
    keyword "hydro" and is classified [HYDRO]; the label of [OTHER] holds
    no keyword. *)
Lemma classify_value_remaining :
  classify (value HYDRO_PUMPED) = HYDRO /\ classify (value OTHER) = OTHER.
Proof. split; reflexivity. Qed.

(** Lower-casing twice is lower-casing once, so a source and its
    lower-cased form are classified alike. *)
Lemma lower_char_idempotent (c : ascii) : lower_char (lower_char c) = lower_char c.
Proof. destruct c as [[] [] [] [] [] [] [] []]; reflexivity. Qed.

Lemma lower_idempotent (s : string) : lower (lower s) = lower s.
Proof.
  induction s as [|c s IH]; simpl; [reflexivity|].
  now rewrite lower_char_idempotent, IH.
Qed.

Lemma classify_lower (source : string) : classify (lower source) = classify source.
Proof. unfold classify. now rewrite lower_idempotent. Qed.

(** No source is classified [HYDRO_PUMPED]: the table has no such entry. *)
Lemma classify_never_hydro_pumped (source : string) :
  classify source <> HYDRO_PUMPED.
Proof.
  unfold classify, source_mapping. cbn [first_match].
  repeat (destruct (contains (lower source) _); [discriminate|]).
  discriminate.
Qed.

End Classifier.

(** ** The response parser *)

Section Parser.
Import Models EIAAtlasClient.

(** C10, as the code has it. A raw feature that gives no coordinates,
    neither in a geometry object nor among its attributes, and whose
    members [geometry] and [attributes] are each absent or an object, is
    parsed, to a plant at latitude 0.0 and longitude 0.0.  When one of the
    two members is present and no object (JSON null, say), parsing raises
    [AttributeError]. *)
Theorem parse_no_coordinates_zero (feature : Wire.RawFeature) :
  no_coordinates feature ->
  if members_are_objects feature
  then exists plant,
         _parse_feature_to_power_plant_raw feature = Ok plant
         /\ latitude (location plant) = 0%float
         /\ longitude (location plant) = 0%float
  else exists msg,
         _parse_feature_to_power_plant_raw feature = Raise (AttributeError msg).
Proof.
  unfold no_coordinates, members_are_objects, _parse_feature_to_power_plant_raw.
  destruct feature as [[[attrs|va]|] [[geom|vg]|]];
    cbn [Wire.raw_attributes Wire.raw_geometry default from_option id get_of].
  all: try (intros _; eexists; reflexivity).
  - intros [[Hy Hx] [Hlat Hlon]]. eexists. split; [reflexivity|].
    cbn. rewrite Hy, Hx, Hlat, Hlon. split; reflexivity.
  - intros [_ [Hlat Hlon]]. eexists. split; [reflexivity|].
    cbn. rewrite Hlat, Hlon. split; reflexivity.
  - intros [[Hy Hx] _]. eexists. split; [reflexivity|].
    cbn. rewrite Hy, Hx. split; reflexivity.
  - intros _. eexists. split; [reflexivity|]. split; reflexivity.
Qed.

(** A feature with an empty geometry object and no attributes. *)
Lemma parse_no_coordinates_zero_witness :
  let feature :=
    {| Wire.raw_attributes := None;
       Wire.raw_geometry := Some (Wire.Object {| Wire.x := None; Wire.y := None |}) |} in
  no_coordinates feature
  /\ exists plant,
       _parse_feature_to_power_plant_raw feature = Ok plant
       /\ latitude (location plant) = 0%float
       /\ longitude (location plant) = 0%float.
Proof.
  intros feature.
  assert (H : no_coordinates feature) by (unfold no_coordinates; simpl; tauto).
  split; [exact H | exact (parse_no_coordinates_zero feature H)].
Defined.

(** C10, against the claim. A feature with [null] for its geometry has no
    geometry object and no coordinates among its attributes, and parsing
    it raises [AttributeError]. *)
Lemma null_geometry_raises_attribute_error :
  let feature :=
    {| Wire.raw_attributes := Some (Wire.Object Wire.no_attributes);
       Wire.raw_geometry := Some (Wire.Other Wire.Null) |} in
  no_coordinates feature
  /\ _parse_feature_to_power_plant_raw feature
     = Raise (AttributeError "'NoneType' object has no attribute 'get'").
Proof.
  intros feature. split; [|reflexivity].
  unfold no_coordinates. simpl. tauto.
Qed.

End Parser.

(** ** Duplicate removal *)

Section Deduplication.
Import Models EIAAtlasClient ExportComprehensive.

Lemma dict_get_app {K V} `{EqDecision K} (d d' : list (K * V)) (k : K) :
  dict_get (d ++ d') k =
  match dict_get d k with Some v => Some v | None => dict_get d' k end.
Proof.
  induction d as [|[k' v] d IH]; simpl; [reflexivity|].
  destruct (decide (k' = k)); [reflexivity | exact IH].
Qed.

Lemma dict_get_None {K V} `{EqDecision K} (d : list (K * V)) (k : K) :
  dict_get d k = None <-> ~ In k (map fst d).
Proof.
  induction d as [|[k' v] d IH]; simpl; [tauto|].
  destruct (decide (k' = k)) as [->|Hne]; [split; [discriminate | tauto]|].
  rewrite IH. tauto.
Qed.

Lemma remember_filed (d : list (Z * PowerPlant)) (plant : PowerPlant) :
  filed_by_code d -> filed_by_code (remember d plant).
Proof.
  intros Hd. unfold remember. destruct (dict_get d (plant_code plant)); [exact Hd|].
  apply Forall_app. split; [exact Hd|]. now constructor.
Qed.

Lemma remember_NoDup (d : list (Z * PowerPlant)) (plant : PowerPlant) :
  NoDup (map fst d) -> NoDup (map fst (remember d plant)).
Proof.
  intros Hd. unfold remember.
  destruct (dict_get d (plant_code plant)) eqn:Hget; [exact Hd|].
  rewrite map_app. simpl. apply NoDup_app. repeat split.
  - exact Hd.
  - intros k Hk Hk'. apply list_elem_of_In in Hk, Hk'. destruct Hk' as [<-|[]].
    now apply dict_get_None in Hget.
  - apply NoDup_singleton.
Qed.

Lemma fold_remember_inv (plants : list PowerPlant) (d : list (Z * PowerPlant)) :
  filed_by_code d -> NoDup (map fst d) ->
  filed_by_code (fold_left remember plants d)
  /\ NoDup (map fst (fold_left remember plants d)).
Proof.
  revert d. induction plants as [|plant plants IH]; intros d Hf Hn; simpl.
  - now split.
  - apply IH; [now apply remember_filed | now apply remember_NoDup].
Qed.

Lemma fold_remember_get (plants : list PowerPlant) (d : list (Z * PowerPlant))
    (code : Z) :
  dict_get (fold_left remember plants d) code =
  match dict_get d code with
  | Some plant => Some plant
  | None => first_with_code code plants
  end.
Proof.
  revert d. induction plants as [|plant plants IH]; intros d; simpl.
  - now destruct (dict_get d code).
  - rewrite IH. unfold remember.
    destruct (dict_get d (plant_code plant)) eqn:Hp.
    + destruct (dict_get d code) eqn:Hc; [reflexivity|].
      destruct (Z.eqb_spec (plant_code plant) code) as [Heq|Hne]; [congruence | reflexivity].
    + rewrite dict_get_app. destruct (dict_get d code) eqn:Hc; [reflexivity|]. simpl.
      destruct (decide (plant_code plant = code)) as [Heq|Hne].
      * now rewrite (proj2 (Z.eqb_eq _ _) Heq).
      * now rewrite (proj2 (Z.eqb_neq _ _) Hne).
Qed.

Lemma first_with_code_values (d : list (Z * PowerPlant)) (code : Z) :
  filed_by_code d -> first_with_code code (map snd d) = dict_get d code.
Proof.
  induction 1 as [|[k v] d Hkv Hd IH]; simpl; [reflexivity|].
  simpl in Hkv. rewrite Hkv.
  destruct (decide (k = code)) as [->|Hne].
  - now rewrite Z.eqb_refl.
  - now rewrite (proj2 (Z.eqb_neq _ _) Hne).
Qed.

Lemma values_codes (d : list (Z * PowerPlant)) :
  filed_by_code d -> map plant_code (map snd d) = map fst d.
Proof.
  induction 1 as [|[k v] d Hkv Hd IH]; simpl; [reflexivity|].
  simpl in Hkv. now rewrite Hkv, IH.
Qed.

Lemma first_with_code_In (code : Z) (plants : list PowerPlant) (plant : PowerPlant) :
  first_with_code code plants = Some plant ->
  In plant plants /\ plant_code plant = code.
Proof.
  intros H. apply find_some in H. now rewrite Z.eqb_eq in H.
Qed.

Lemma first_with_code_is_Some (code : Z) (plants : list PowerPlant) :
  In code (map plant_code plants) -> exists plant, first_with_code code plants = Some plant.
Proof.
  induction plants as [|p plants IH]; simpl; [tauto|].
  destruct (Z.eqb_spec (plant_code p) code) as [Heq|Hne]; [now exists p|].
  intros [Heq|Hin]; [congruence | now apply IH].
Qed.

Lemma count_code_absent (code : Z) (plants : list PowerPlant) :
  ~ In code (map plant_code plants) -> count_code code plants = 0%nat.
Proof.
  unfold count_code. induction plants as [|p plants IH]; simpl; [reflexivity|].
  intros Hno. rewrite filter_cons.
  destruct (decide (plant_code p = code)) as [Heq|Hne]; [tauto|].
  apply IH. tauto.
Qed.

Lemma count_code_NoDup (code : Z) (plants : list PowerPlant) :
  NoDup (map plant_code plants) -> In code (map plant_code plants) ->
  count_code code plants = 1%nat.
Proof.
  induction plants as [|p plants IH]; simpl; [tauto|].
  intros Hnd Hin. apply NoDup_cons in Hnd as [Hp Hnd].
  rewrite list_elem_of_In in Hp.
  unfold count_code in *. rewrite filter_cons.
  destruct (decide (plant_code p = code)) as [Heq|Hne].
  - simpl. f_equal. apply count_code_absent. now rewrite <- Heq.
  - destruct Hin as [Heq|Hin]; [congruence|]. now apply IH.
Qed.

Lemma final_plants_inv (all_plants : list PowerPlant) :
  filed_by_code (unique_plants all_plants)
  /\ NoDup (map fst (unique_plants all_plants)).
Proof.
  apply fold_remember_inv; [constructor | simpl; constructor].
Qed.

(** C7. Removing duplicates by plant code keeps, for every plant code of
    the input, exactly one record, the first of the input with that code;
    it keeps nothing else.  Of three records with the codes 1, 2, 1 the
    first two remain. *)
Theorem final_plants_first_per_code (all_plants : list PowerPlant) :
  NoDup (map plant_code (final_plants all_plants))
  /\ (forall code,
        first_with_code code (final_plants all_plants)
        = first_with_code code all_plants)
  /\ (forall code,
        count_code code (final_plants all_plants)
        = if bool_decide (code ∈ map plant_code all_plants) then 1%nat else 0%nat)
  /\ (forall a b c,
        all_plants = [a; b; c] ->
        plant_code a = 1 -> plant_code b = 2 -> plant_code c = 1 ->
        final_plants all_plants = [a; b]).
Proof.
  destruct (final_plants_inv all_plants) as [Hfiled Hnodup].
  assert (Hcodes : map plant_code (final_plants all_plants)
                   = map fst (unique_plants all_plants))
    by now apply values_codes.
  assert (Hfirst : forall code,
             first_with_code code (final_plants all_plants)
             = first_with_code code all_plants).
  { intros code. unfold final_plants. rewrite first_with_code_values by assumption.
    unfold unique_plants. now rewrite fold_remember_get. }
  repeat split.
  - now rewrite Hcodes.
  - exact Hfirst.
  - intros code. case_bool_decide as Hin.
    + apply count_code_NoDup; [now rewrite Hcodes|].
      apply list_elem_of_In, first_with_code_is_Some in Hin as [plant Hplant].
      rewrite <- Hfirst in Hplant. apply first_with_code_In in Hplant as [Hp <-].
      now apply in_map.
    + apply count_code_absent. intros Hfin. apply Hin, list_elem_of_In.
      apply first_with_code_is_Some in Hfin as [plant Hplant].
      rewrite Hfirst in Hplant. apply first_with_code_In in Hplant as [Hp <-].
      now apply in_map.
  - intros a b c -> Ha Hb Hc. unfold final_plants, unique_plants, remember. simpl.
    rewrite Ha, Hb, Hc. reflexivity.
Qed.

(** Three parsed features with the plant codes 1, 2, 1: the second
    plant of code 1 is dropped, the first stays. *)
Lemma final_plants_first_per_code_witness :
  let plant code name :=
    _parse_feature_to_power_plant
      {| Wire.attributes :=
           Some (Wire.set_plant Wire.no_attributes code name);
         Wire.geometry := None |} in
  final_plants [plant 1 "first"; plant 2 "second"; plant 1 "third"]
  = [plant 1 "first"; plant 2 "second"].
Proof.
  intros plant.
  exact (proj2 (proj2 (proj2 (final_plants_first_per_code
           [plant 1 "first"; plant 2 "second"; plant 1 "third"])))
           (plant 1 "first") (plant 2 "second") (plant 1 "third")
           eq_refl eq_refl eq_refl eq_refl).
Defined.

End Deduplication.

(** ** The pagination loop *)

Section Pagination.
Import Models EIAAtlasClient Scenarios.

Lemma current_params_offset (params : gmap string param) (batch_size o : Z) :
  current_params params batch_size o !! "resultOffset" = Some (PInt o).
Proof.
  unfold current_params.
  destruct (<["resultOffset" := PInt o]> params !! "resultRecordCount").
  - apply lookup_insert_eq.
  - rewrite lookup_insert_ne by discriminate. apply lookup_insert_eq.
Qed.

(** A pass that continues has received as many features as its offset
    moves, and has kept all of them. *)
Lemma after_response_continue (limit : option Z) (batch_size : Z)
    (st st' : loop_state) (response : EIAAtlasResponse) :
  after_response limit batch_size st response = Continue st' ->
  offset st' = offset st + len (features response)
  /\ all_plants st' =
     all_plants st ++ map _parse_feature_to_power_plant (features response)
  /\ features response <> []
  /\ exceeded_transfer_limit response = false
  /\ batch_size <= len (features response).
Proof.
  unfold after_response. destruct (features response) as [|ft fts] eqn:Hfs; [discriminate|].
  destruct (truthy limit && _); [discriminate|].
  destruct (len (ft :: fts) <? batch_size) eqn:Hlt; [discriminate|].
  destruct (exceeded_transfer_limit response); [discriminate|]. simpl.
  intros [= <-]. simpl. apply Z.ltb_ge in Hlt. repeat split; [discriminate | exact Hlt].
Qed.

(** The loop body on a page that is not empty. *)
Lemma after_response_nonempty (limit : option Z) (batch_size : Z)
    (st : loop_state) (response : EIAAtlasResponse) :
  features response <> [] ->
  let plants :=
    all_plants st ++ map _parse_feature_to_power_plant (features response) in
  after_response limit batch_size st response
  = if truthy limit && (default 0 limit <=? len plants)
    then Break (slice_to (default 0 limit) plants)
    else if (len (features response) <? batch_size)
            || exceeded_transfer_limit response
    then Break plants
    else Continue {| all_plants := plants;
                     offset := offset st + len (features response) |}.
Proof.
  intros Hne plants. unfold after_response. subst plants.
  destruct (features response) as [|ft fts]; [congruence | reflexivity].
Qed.

(** The loop of one call: a client, a URL and the parameters of the query. *)
Section Loop.
Context (self : client) (url : string) (params : gmap string param).

(** The first pass of the loop, when the request is answered. *)
Lemma loop_first_pass (fuel : nat) (limit : option Z) (batch_size : Z)
    (st : loop_state) (data : Wire.Data) :
  _make_request self url (current_params params batch_size (offset st)) = Ok data ->
  loop (S fuel) self url params limit batch_size st
  = let ex := {| sent := current_params params batch_size (offset st);
                 got := Ok data |} in
    match after_response limit batch_size st (from_dict data) with
    | Continue st' =>
        let '(log, out) := loop fuel self url params limit batch_size st' in
        (ex :: log, out)
    | Break plants => ([ex], Returned plants)
    | Abort e => ([ex], Raised e)
    end.
Proof. intros Hreq. cbn [loop iteration]. rewrite Hreq. reflexivity. Qed.

(** A pass with fuel makes a request at the offset of its state. *)
Lemma loop_makes_request (fuel : nat) (limit : option Z) (batch_size : Z)
    (st : loop_state) :
  exists ex log out,
    loop (S fuel) self url params limit batch_size st = (ex :: log, out)
    /\ sent ex = current_params params batch_size (offset st).
Proof.
  cbn [loop iteration].
  destruct (match _make_request self url _ with Ok data => _ | Raise e => _ end)
    as [st'| |].
  - destruct (loop fuel self url params limit batch_size st') as [log out].
    eexists _, _, _. split; reflexivity.
  - eexists _, _, _. split; reflexivity.
  - eexists _, _, _. split; reflexivity.
Qed.


(** C1, as the code has it. A page that is not empty, has its
    transfer-limit flag off and does not bring the plants to the limit ends
    the loop, with no further request, when it holds fewer features than
    the page size; when it holds at least the page size, the loop goes on
    with a request at the offset moved by the number of features. *)
Theorem loop_short_page_ends_full_page_continues (fuel : nat)
    (limit : option Z) (batch_size : Z) (st : loop_state) (data : Wire.Data) :
  let ex := {| sent := current_params params batch_size (offset st);
               got := Ok data |} in
  let response := from_dict data in
  let plants :=
    all_plants st ++ map _parse_feature_to_power_plant (features response) in
  _make_request self url (current_params params batch_size (offset st)) = Ok data ->
  features response <> [] ->
  exceeded_transfer_limit response = false ->
  truthy limit && (default 0 limit <=? len plants) = false ->
  (len (features response) < batch_size ->
     loop (S fuel) self url params limit batch_size st = ([ex], Returned plants))
  /\ (batch_size <= len (features response) ->
      exists ex' log out,
        loop (S (S fuel)) self url params limit batch_size st
        = (ex :: ex' :: log, out)
        /\ sent ex' = current_params params batch_size
                        (offset st + len (features response))).
Proof.
  intros ex response plants Hreq Hne Hflag Hlim.
  assert (Hstep : after_response limit batch_size st response
                  = if len (features response) <? batch_size
                    then Break plants
                    else Continue {| all_plants := plants;
                                     offset := offset st + len (features response) |}).
  { rewrite (after_response_nonempty _ _ _ _ Hne). fold plants.
    now rewrite Hlim, Hflag, orb_false_r. }
  split.
  - intros Hshort. rewrite (loop_first_pass _ _ _ _ data Hreq).
    fold response. rewrite Hstep.
    now rewrite (proj2 (Z.ltb_lt _ _) Hshort).
  - intros Hfull. rewrite (loop_first_pass _ _ _ _ data Hreq).
    fold response. rewrite Hstep, (proj2 (Z.ltb_ge _ _) Hfull).
    destruct (loop_makes_request fuel limit batch_size
                {| all_plants := plants;
                   offset := offset st + len (features response) |})
      as (ex' & log & out & -> & Hsent).
    exists ex', log, out. split; [reflexivity | exact Hsent].
Qed.

End Loop.


(** The offset moves by what was received, not by what was asked for: a
    service that sends three features to each request for two is asked at
    the offsets 0, 3 and 6. *)
Lemma offsets_of_three_per_page :
  offsets (requests (get_power_plants three_per_page {[ 0%nat := pages_of_two ]}
                       "all_plants" (Some 0%nat) None 10)) = [0; 3; 6]
  /\ returned_count (get_power_plants three_per_page {[ 0%nat := pages_of_two ]}
                       "all_plants" (Some 0%nat) None 10) = Some 6%nat.
Proof. vm_compute. split; reflexivity. Qed.

Lemma services_all_plants :
  SERVICES !! "all_plants" = Some "ElectricPowerPlants/FeatureServer/0".
Proof. vm_compute. reflexivity. Qed.

(** A call on a known service, in one equation: the object the call
    works on, the store it leaves and the loop it runs. *)
Lemma get_power_plants_run (self : client) (h : store) (service path : string)
    (query_params : option nat) (limit : option Z) (fuel : nat) :
  SERVICES !! service = Some path ->
  let h1 := fst (resolve_query_params h query_params) in
  let l := snd (resolve_query_params h query_params) in
  let q := if truthy limit
           then set_result_record_count limit (h1 !!! l) else h1 !!! l in
  get_power_plants self h service query_params limit fuel
  = (if truthy limit then <[l := q]> h1 else h1,
     loop fuel self (_build_url path) (to_dict q) limit (batch_size_of q)
          {| all_plants := []; offset := 0 |}).
Proof.
  intros Hs. unfold get_power_plants. rewrite Hs.
  destruct (resolve_query_params h query_params) as [h1 l]. cbn [fst snd].
  destruct (truthy limit); [|reflexivity].
  now rewrite lookup_total_insert_eq.
Qed.

(** A first page of exactly 1000 features at page size 1000, flag off: the
    loop asks for the page at offset 1000. *)
Lemma loop_short_page_ends_full_page_continues_witness :
  let self := first_page_of 1000 false in
  let url := _build_url "ElectricPowerPlants/FeatureServer/0" in
  let params := to_dict default_query_params in
  let st := {| all_plants := []; offset := 0 |} in
  exists ex ex' log out,
    loop 2 self url params None 1000 st = (ex :: ex' :: log, out)
    /\ sent ex' = current_params params 1000 1000.
Proof.
  intros self url params st.
  pose (data := page (replicate 1000 (feature_of "Solar")) false).
  assert (Hreq : _make_request self url (current_params params 1000 (offset st))
                 = Ok data) by (vm_compute; reflexivity).
  assert (Hne : features (from_dict data) <> []) by (vm_compute; discriminate).
  assert (Hfull : 1000 <= len (features (from_dict data)))
    by (vm_compute; discriminate).
  destruct (proj2 (loop_short_page_ends_full_page_continues
                     self url params 0 None 1000 st data Hreq Hne eq_refl eq_refl)
              Hfull) as (ex' & log & out & Hrun & Hsent).
  eexists _, ex', log, out. split; [exact Hrun | exact Hsent].
Defined.

(** C1, against the claim. At page size 1000, a first page of exactly
    1000 features with the flag off is followed by a second request, so
    the loop does not end at once; the same page with the flag on ends
    the call after that one request. *)
Lemma full_page_flag_off_continues_flag_on_ends :
  length (requests (get_power_plants (first_page_of 1000 false) ∅
                      "all_plants" None None 10)) = 2%nat
  /\ returned_count (get_power_plants (first_page_of 1000 false) ∅
                       "all_plants" None None 10) = Some 1003%nat
  /\ length (requests (get_power_plants (first_page_of 1000 true) ∅
                         "all_plants" None None 10)) = 1%nat
  /\ returned_count (get_power_plants (first_page_of 1000 true) ∅
                       "all_plants" None None 10) = Some 1000%nat.
Proof. vm_compute. repeat split; reflexivity. Qed.

(** ** The limit *)

Lemma slice_to_length {A} (n : Z) (xs : list A) :
  0 <= n <= len xs -> len (slice_to n xs) = n.
Proof.
  unfold slice_to, len. intros [H0 Hn].
  rewrite (proj2 (Z.leb_le _ _) H0), length_take_le by lia. lia.
Qed.

(** With a limit above 0 the loop ends within [limit] passes, since each
    pass that continues has added a plant and stayed short of the limit;
    what it returns has at most [limit] plants. *)
Lemma loop_with_limit_ends (fuel : nat) (self : client) (url : string)
    (params : gmap string param) (limit batch_size : Z) (st : loop_state) :
  0 < limit -> len (all_plants st) <= limit ->
  (1 <= fuel)%nat -> limit <= Z.of_nat fuel + len (all_plants st) ->
  match snd (loop fuel self url params (Some limit) batch_size st) with
  | Returned plants => len plants <= limit
  | Raised _ => True
  | OutOfFuel => False
  end.
Proof.
  intros Hpos. revert st. induction fuel as [|fuel IH]; intros st Hall Hfuel Hlim; [lia|].
  cbn [loop iteration].
  destruct (_make_request self url _) as [data|e]; [|exact I].
  destruct (features (from_dict data)) as [|ft fts] eqn:Hfs.
  - unfold after_response. rewrite Hfs. exact Hall.
  - assert (Hne : features (from_dict data) <> []) by (rewrite Hfs; discriminate).
    rewrite (after_response_nonempty _ _ _ _ Hne).
    set (plants := all_plants st ++ _).
    assert (Hlen : len plants = len (all_plants st) + len (features (from_dict data))).
    { subst plants. unfold len. rewrite length_app, List.length_map. lia. }
    assert (Hft : 1 <= len (features (from_dict data))).
    { rewrite Hfs. unfold len. simpl. lia. }
    cbn [truthy default from_option id]. rewrite (proj2 (Z.eqb_neq limit 0)) by lia.
    cbn [negb andb].
    destruct (Z.leb_spec limit (len plants)) as [Hreach|Hshort].
    + cbn [snd]. rewrite slice_to_length; lia.
    + destruct ((len (features (from_dict data)) <? batch_size)
                || exceeded_transfer_limit (from_dict data)).
      * cbn [snd]. lia.
      * specialize (IH {| all_plants := plants;
                          offset := offset st + len (features (from_dict data)) |}).
        cbn [all_plants] in IH.
        destruct (loop fuel self url params (Some limit) batch_size _) as [log out].
        cbn [snd] in *. apply IH; lia.
Qed.

(** So a call with a limit above 0 returns or raises when given [limit]
    passes, and returns at most [limit] plants. *)
Lemma get_power_plants_with_limit_ends (self : client) (h : store)
    (service : string) (query_params : option nat) (limit : Z) (fuel : nat) :
  0 < limit -> limit <= Z.of_nat fuel ->
  match ended (get_power_plants self h service query_params (Some limit) fuel) with
  | Returned plants => len plants <= limit
  | Raised _ => True
  | OutOfFuel => False
  end.
Proof.
  intros Hpos Hfuel. unfold ended.
  destruct (SERVICES !! service) as [path|] eqn:Hs.
  - rewrite (get_power_plants_run _ _ _ _ _ _ _ Hs). cbn [snd].
    apply loop_with_limit_ends; cbn [all_plants]; unfold len; simpl; lia.
  - unfold get_power_plants. rewrite Hs. exact I.
Qed.

(** A call with a limit makes one request: the limit is the page size, so
    the first page either reaches the limit or is short of the page size. *)
Lemma get_power_plants_with_limit_one_request (self : client) (h : store)
    (service path : string) (query_params : option nat) (limit : Z) (fuel : nat) :
  limit <> 0 -> SERVICES !! service = Some path ->
  length (requests (get_power_plants self h service query_params (Some limit)
                      (S fuel))) = 1%nat.
Proof.
  intros Hl Hs. unfold requests.
  rewrite (get_power_plants_run _ _ _ _ _ _ _ Hs). cbn [snd truthy].
  rewrite (proj2 (Z.eqb_neq limit 0) Hl). cbn [negb].
  set (q := set_result_record_count (Some limit) _).
  assert (Hb : batch_size_of q = limit).
  { unfold batch_size_of, q. cbn [result_record_count set_result_record_count].
    now rewrite (proj2 (Z.eqb_neq limit 0) Hl). }
  rewrite Hb. cbn [loop iteration].
  destruct (_make_request self _ _) as [data|e]; [|reflexivity].
  destruct (features (from_dict data)) as [|ft fts] eqn:Hfs.
  - unfold after_response. now rewrite Hfs.
  - assert (Hne : features (from_dict data) <> []) by (rewrite Hfs; discriminate).
    rewrite (after_response_nonempty _ _ _ _ Hne). cbn [all_plants app].
    cbn [truthy default from_option id]. rewrite (proj2 (Z.eqb_neq limit 0) Hl).
    cbn [negb andb]. unfold len at 1. rewrite List.length_map. fold (len (features (from_dict data))).
    destruct (Z.leb_spec limit (len (features (from_dict data)))) as [Hreach|Hshort].
    + reflexivity.
    + now rewrite (proj2 (Z.ltb_lt _ _) Hshort).
Qed.

(** The page size of the query is sent with every request of the loop. *)
Lemma to_dict_page_size (q : PowerPlantQueryParams) (n : Z) :
  result_record_count q = Some n ->
  to_dict q !! "resultRecordCount" = Some (PInt n).
Proof.
  unfold to_dict. intros ->. cbn [set_if_some].
  destruct (result_offset q), (order_by_fields q); cbn [set_if_some];
    rewrite ?lookup_insert_ne by discriminate; apply lookup_insert_eq.
Qed.

Lemma current_params_page_size (params : gmap string param) (n batch_size o : Z) :
  params !! "resultRecordCount" = Some (PInt n) ->
  current_params params batch_size o !! "resultRecordCount" = Some (PInt n).
Proof.
  intros Hn. unfold current_params.
  rewrite lookup_insert_ne by discriminate. rewrite Hn.
  now rewrite lookup_insert_ne by discriminate.
Qed.

Lemma loop_sent_page_size (fuel : nat) (self : client) (url : string)
    (params : gmap string param) (n : Z) (limit : option Z) (batch_size : Z)
    (st : loop_state) :
  params !! "resultRecordCount" = Some (PInt n) ->
  Forall (fun ex => sent ex !! "resultRecordCount" = Some (PInt n))
         (fst (loop fuel self url params limit batch_size st)).
Proof.
  intros Hn. revert st. induction fuel as [|fuel IH]; intros st; [constructor|].
  cbn [loop iteration].
  destruct (match _make_request self url _ with Ok data => _ | Raise e => _ end)
    as [st'| |].
  - specialize (IH st').
    destruct (loop fuel self url params limit batch_size st') as [log out].
    cbn [fst] in *. constructor; [now apply current_params_page_size | exact IH].
  - cbn [fst]. constructor; [now apply current_params_page_size | constructor].
  - cbn [fst]. constructor; [now apply current_params_page_size | constructor].
Qed.

(** C3, as the code has it. With a limit set and not 0, a page that
    brings the plants to the limit or beyond ends the loop, and the call
    returns the first [limit] of them.  The limit is also the page size:
    every request of the call asks for [limit] records, whatever page size
    the caller's query had.  So with limit 7 and a service whose pages hold
    5 features, flag off, the first page is short of the page size and
    ends the call, which returns its 5 plants after one request. *)
Theorem limit_truncates_and_sets_page_size :
  (forall fuel self url params limit batch_size st data,
     let ex := {| sent := current_params params batch_size (offset st);
                  got := Ok data |} in
     let plants :=
       all_plants st
       ++ map _parse_feature_to_power_plant (features (from_dict data)) in
     0 < limit ->
     _make_request self url (current_params params batch_size (offset st)) = Ok data ->
     features (from_dict data) <> [] ->
     limit <= len plants ->
     loop (S fuel) self url params (Some limit) batch_size st
     = ([ex], Returned (slice_to limit plants))
     /\ len (slice_to limit plants) = limit)
  /\ (forall self h service query_params limit fuel,
       limit <> 0 ->
       Forall (fun ex => sent ex !! "resultRecordCount" = Some (PInt limit))
              (requests (get_power_plants self h service query_params
                           (Some limit) fuel)))
  /\ (forall self h query_params fuel,
       serves_pages_of self 5 ->
       let r := get_power_plants self h "all_plants" query_params (Some 7)
                  (S fuel) in
       returned_count r = Some 5%nat
       /\ length (requests r) = 1%nat
       /\ Forall (fun ex => sent ex !! "resultRecordCount" = Some (PInt 7))
                 (requests r)).
Proof.
  assert (Hsize : forall self h service query_params limit fuel,
             limit <> 0 ->
             Forall (fun ex => sent ex !! "resultRecordCount" = Some (PInt limit))
                    (requests (get_power_plants self h service query_params
                                 (Some limit) fuel))).
  { intros self h service query_params limit fuel Hl. unfold requests.
    destruct (SERVICES !! service) as [path|] eqn:Hs.
    - rewrite (get_power_plants_run _ _ _ _ _ _ _ Hs). cbn [fst snd truthy].
      rewrite (proj2 (Z.eqb_neq limit 0) Hl). cbn [negb].
      apply loop_sent_page_size, to_dict_page_size. reflexivity.
    - unfold get_power_plants. rewrite Hs. constructor. }
  split; [|split; [exact Hsize|]].
  - intros fuel self url params limit batch_size st data ex plants Hpos Hreq Hne Hlim.
    split; [|apply slice_to_length; lia].
    rewrite (loop_first_pass _ _ _ _ _ _ _ data Hreq). fold ex.
    rewrite (after_response_nonempty _ _ _ _ Hne). fold plants.
    cbn [truthy default from_option id]. rewrite (proj2 (Z.eqb_neq limit 0)) by lia.
    now rewrite (proj2 (Z.leb_le _ _) Hlim).
  - intros self h query_params fuel Hserve r.
    assert (H7 : Forall (fun ex => sent ex !! "resultRecordCount" = Some (PInt 7))
                        (requests r)) by (apply Hsize; discriminate).
    split; [|split; [|exact H7]]; clear H7; subst r.
    all: rewrite (get_power_plants_run _ _ _ _ _ _ _ services_all_plants).
    all: cbn [truthy negb Z.eqb]; unfold returned_count, ended, requests; cbn [fst snd].
    all: set (q := set_result_record_count (Some 7) _).
    all: destruct (Hserve (_build_url "ElectricPowerPlants/FeatureServer/0")
                     (current_params (to_dict q) (batch_size_of q) 0))
           as (data & Hget & Herr & Hlen & _).
    all: assert (Hreq : _make_request self
                          (_build_url "ElectricPowerPlants/FeatureServer/0")
                          (current_params (to_dict q) (batch_size_of q) 0) = Ok data)
           by (unfold _make_request; now rewrite Hget, Herr).
    all: rewrite (loop_first_pass _ _ _ _ _ _ {| all_plants := []; offset := 0 |}
                    data Hreq).
    all: assert (Hne : features (from_dict data) <> [])
           by (intros Hnil; now rewrite Hnil in Hlen).
    all: rewrite (after_response_nonempty _ _ _ _ Hne).
    all: cbn [all_plants app]; unfold len; rewrite List.length_map, Hlen.
    all: change (batch_size_of q) with 7.
    all: change (truthy (Some 7) && (default 0 (Some 7) <=? Z.of_nat 5)) with false.
    all: change (Z.of_nat 5 <? 7) with true.
    all: cbn [orb fst snd length].
    + now rewrite List.length_map, Hlen.
    + reflexivity.
Qed.

(** A caller whose query asks for pages of five, with limit 7: the one
    request asks for 7 records. *)
Lemma limit_truncates_and_sets_page_size_witness :
  let h : store := {[ 0%nat := set_result_record_count (Some 5) default_query_params ]} in
  let r := get_power_plants (pages_of_five false) h "all_plants" (Some 0%nat)
             (Some 7) 3 in
  returned_count r = Some 5%nat
  /\ length (requests r) = 1%nat
  /\ Forall (fun ex => sent ex !! "resultRecordCount" = Some (PInt 7)) (requests r).
Proof.
  intros h.
  apply (proj2 (proj2 limit_truncates_and_sets_page_size) (pages_of_five false) h
           (Some 0%nat) 2%nat).
  intros url params. eexists. repeat split.
Defined.

(** C3, against the claim. With limit 7 and pages of 5 features the call
    returns 5 plants after a single request, not 7 after two. *)
Lemma limit_seven_pages_of_five_returns_five :
  returned_count (get_power_plants (pages_of_five false) ∅ "all_plants"
                    None (Some 7) 10) = Some 5%nat
  /\ length (requests (get_power_plants (pages_of_five false) ∅ "all_plants"
                         None (Some 7) 10)) = 1%nat.
Proof. vm_compute. split; reflexivity. Qed.

(** ** The caller's query parameters *)

(** C5, as the code has it. A call with a limit that is neither [None]
    nor 0, on a known service, assigns the limit to [result_record_count]
    of the caller's object; every other field of the object, every other
    object, and the whole store in all other calls stay as they were. *)
Theorem get_power_plants_assigns_limit (self : client) (h : store)
    (service : string) (l : nat) (q : PowerPlantQueryParams)
    (limit : option Z) (fuel : nat) :
  h !! l = Some q ->
  let h' := fst (get_power_plants self h service (Some l) limit fuel) in
  let q' := set_result_record_count limit q in
  h' = (if truthy limit && bool_decide (is_Some (SERVICES !! service))
        then <[l := q']> h else h)
  /\ result_record_count q' = limit
  /\ where_clause q' = where_clause q
  /\ out_fields q' = out_fields q
  /\ out_sr q' = out_sr q
  /\ result_offset q' = result_offset q
  /\ order_by_fields q' = order_by_fields q
  /\ return_geometry q' = return_geometry q
  /\ f q' = f q.
Proof.
  intros Hq h' q'. split; [|repeat split].
  subst h' q'. destruct (SERVICES !! service) as [path|] eqn:Hs.
  - rewrite (get_power_plants_run _ _ _ _ _ _ _ Hs). cbn [fst snd resolve_query_params].
    rewrite (lookup_total_correct _ _ _ Hq), andb_true_r.
    now destruct (truthy limit).
  - unfold get_power_plants. rewrite Hs, andb_false_r. reflexivity.
Qed.

Lemma get_power_plants_assigns_limit_witness :
  let h : store := {[ 0%nat := default_query_params ]} in
  fst (get_power_plants (pages_of_five false) h "all_plants" (Some 0%nat) None 3)
  = h.
Proof.
  intros h.
  exact (proj1 (get_power_plants_assigns_limit (pages_of_five false) h
                  "all_plants" 0%nat default_query_params None 3 eq_refl)).
Defined.

(** C5, against the claim. The caller's object has no page size before
    the call with limit 7 and the page size 7 after it. *)
Lemma caller_query_params_changed :
  let h : store := {[ 0%nat := default_query_params ]} in
  let h' := fst (get_power_plants (pages_of_five false) h "all_plants"
                   (Some 0%nat) (Some 7) 3) in
  result_record_count <$> h !! 0%nat = Some None
  /\ result_record_count <$> h' !! 0%nat = Some (Some 7).
Proof. vm_compute. split; reflexivity. Qed.

(** ** Routing by energy type *)




(** The fallback for [HYDRO_PUMPED] returns no plant at all, whatever the
    service sends, since no source is classified [HYDRO_PUMPED]. *)
Lemma hydro_pumped_returns_nothing (self : client) (h : store)
    (limit : option Z) (fuel : nat) (plants : list PowerPlant) :
  ended (get_plants_by_energy_type self h HYDRO_PUMPED limit fuel) = Returned plants ->
  plants = [].
Proof.
  unfold ended, get_plants_by_energy_type. cbn [dict_get service_mapping decide].
  destruct (get_power_plants self h "all_plants" None limit fuel) as [h' [log out]].
  cbn [snd]. destruct out as [all| |]; try discriminate. intros [= <-].
  induction all as [|plant all IH]; [reflexivity|].
  rewrite filter_cons. destruct (decide _) as [Heq|_]; [|exact IH].
  now apply classify_never_hydro_pumped in Heq.
Qed.

End Pagination.

(** ** The renewable percentage *)

Section Percentage.
Import DataAggregator.







End Percentage.

(** ** More on the requests of a call *)

Section Requests.
Import Models EIAAtlasClient Scenarios.

(** X1. A request hands its caller a body exactly when the session gave
    a body without an [error] key.  A failed connection, a body that is no
    JSON and an [error] that is an object are raised as a
    [RequestException]; an [error] that is no object (a text, null) raises
    the [AttributeError] of its missing [get], which no [except] clause of
    the function catches. *)
Theorem make_request_ok_iff_no_error_key (self : client) (url : string)
    (params : gmap string param) :
  (forall data,
     _make_request self url params = Ok data
     <-> session_get self url params = Body data /\ Wire.error data = None)
  /\ (forall e, _make_request self url params = Raise e ->
        (exists msg, e = RequestException msg)
        \/ (exists data v,
              session_get self url params = Body data
              /\ Wire.error data = Some (Wire.Other v)
              /\ e = AttributeError
                       ("'" ++ Wire.type_name v
                            ++ "' object has no attribute 'get'")%string))
  /\ (forall data message,
        session_get self url params = Body data ->
        Wire.error data = Some (Wire.Object message) ->
        _make_request self url params
        = Raise (RequestException
                   ("API Error: " ++ default "Unknown API error" message)%string))
  /\ (forall data v,
        session_get self url params = Body data ->
        Wire.error data = Some (Wire.Other v) ->
        exists msg, _make_request self url params = Raise (AttributeError msg)).
Proof.
  unfold _make_request. split; [|split; [|split]].
  - intros data. destruct (session_get self url params) as [msg|msg|body].
    + split; [discriminate | intros [[=] _]].
    + split; [discriminate | intros [[=] _]].
    + destruct (Wire.error body) as [[message|v]|] eqn:Herr; cbn [get_of].
      * split; [discriminate | intros [[= ->] Hnone]; congruence].
      * split; [discriminate | intros [[= ->] Hnone]; congruence].
      * split; [intros [= ->]; now split | intros [[= ->] _]; reflexivity].
  - intros e. destruct (session_get self url params) as [msg|msg|body].
    + intros [= <-]. left. eauto.
    + intros [= <-]. left. eauto.
    + destruct (Wire.error body) as [[message|v]|] eqn:Herr; cbn [get_of].
      * intros [= <-]. left. eauto.
      * intros [= <-]. right. exists body, v. repeat split. exact Herr.
      * discriminate.
  - intros data message -> ->. reflexivity.
  - intros data v -> ->. cbn [get_of]. eauto.
Qed.

(** [{"error": "boom"}]: the text has no [get]. *)
Lemma make_request_ok_iff_no_error_key_witness :
  exists msg, _make_request reports_text_error "u" ∅ = Raise (AttributeError msg).
Proof.
  eapply (proj2 (proj2 (proj2
            (make_request_ok_iff_no_error_key reports_text_error "u" ∅))));
    reflexivity.
Defined.

Section Loop.
Context (self : client) (url : string) (params : gmap string param)
        (limit : option Z) (batch_size : Z).

(** What one pass makes of the loop: the request, then the end of the
    call or the rest of the loop. *)
Lemma loop_pass (fuel : nat) (st : loop_state) :
  loop (S fuel) self url params limit batch_size st
  = let ex := {| sent := current_params params batch_size (offset st);
                 got := _make_request self url
                          (current_params params batch_size (offset st)) |} in
    match got ex with
    | Raise e => ([ex], Raised e)
    | Ok data =>
        match after_response limit batch_size st (from_dict data) with
        | Continue st' =>
            (ex :: fst (loop fuel self url params limit batch_size st'),
             snd (loop fuel self url params limit batch_size st'))
        | Break plants => ([ex], Returned plants)
        | Abort e => ([ex], Raised e)
        end
    end.
Proof.
  cbn [loop iteration got].
  destruct (_make_request self url _) as [data|e]; [|reflexivity].
  destruct (after_response limit batch_size st (from_dict data)) as [st'| |];
    try reflexivity.
  now destruct (loop fuel self url params limit batch_size st').
Qed.

(** A request that raises ends the loop with its exception; the requests
    before the last one of a loop were all answered. *)
Lemma loop_all_or_nothing (fuel : nat) (st : loop_state) :
  let r := loop fuel self url params limit batch_size st in
  (forall ex e, In ex (fst r) -> got ex = Raise e ->
     snd r = Raised e
     /\ exists log, fst r = log ++ [ex] /\ Forall answered log)
  /\ match snd r with
     | Raised _ => exists log ex, fst r = log ++ [ex] /\ Forall answered log
     | _ => Forall answered (fst r)
     end.
Proof.
  cbn zeta. revert st. induction fuel as [|fuel IH]; intros st.
  { split; [intros ex e [] | constructor]. }
  rewrite loop_pass. cbn zeta. cbn [got].
  destruct (_make_request self url _) as [data|e] eqn:Hreq.
  - set (ex0 := {| sent := _; got := Ok data |}).
    assert (Hans : answered ex0) by exact I.
    destruct (after_response limit batch_size st (from_dict data)) as [st'|plants|e].
    + destruct (IH st') as [IHfail IHend]. cbn [fst snd]. split.
      * intros ex e [<-|Hin] Hgot; [discriminate|].
        destruct (IHfail ex e Hin Hgot) as (Hout & log & Hlog & Hall).
        split; [exact Hout|]. exists (ex0 :: log). rewrite Hlog.
        split; [reflexivity | now constructor].
      * destruct (snd (loop fuel self url params limit batch_size st')).
        -- now constructor.
        -- destruct IHend as (log & ex & Hlog & Hall).
           exists (ex0 :: log), ex. rewrite Hlog.
           split; [reflexivity | now constructor].
        -- now constructor.
    + cbn [fst snd]. split.
      * intros ex e [<-|[]] Hgot. discriminate.
      * constructor; [exact Hans | constructor].
    + cbn [fst snd]. split.
      * intros ex e' [<-|[]] Hgot. discriminate.
      * exists [], ex0. split; [reflexivity | constructor].
  - cbn [fst snd]. split.
    + intros ex e' [<-|[]] Hgot. cbn [got] in Hgot. injection Hgot as <-.
      split; [reflexivity|]. exists []. split; [reflexivity | constructor].
    + eexists [], _. split; [reflexivity | constructor].
Qed.

Lemma cut_short (plants : list PowerPlant) :
  (truthy limit = true -> plants = [] \/ len plants < default 0 limit) ->
  cut limit plants = plants.
Proof.
  unfold cut. destruct (truthy limit); [|reflexivity]. intros H.
  destruct (H eq_refl) as [-> | Hlt].
  - unfold slice_to. destruct (0 <=? _); apply take_nil.
  - unfold slice_to, len in *. rewrite (proj2 (Z.leb_le 0 _)) by lia.
    apply take_ge. lia.
Qed.

Lemma loop_returns_received (fuel : nat) (st : loop_state)
    (plants : list PowerPlant) :
  short_of_limit limit st ->
  snd (loop fuel self url params limit batch_size st) = Returned plants ->
  plants = cut limit (all_plants st
                      ++ received (fst (loop fuel self url params limit batch_size st))).
Proof.
  revert st. induction fuel as [|fuel IH]; intros st Hinv; [discriminate|].
  rewrite loop_pass. cbn zeta. cbn [got].
  destruct (_make_request self url _) as [data|e] eqn:Hreq; [|discriminate].
  destruct (features (from_dict data)) as [|ft fts] eqn:Hfs.
  - unfold after_response. rewrite Hfs. cbn [fst snd]. intros [= <-].
    unfold received. cbn [flat_map got]. rewrite Hfs. cbn [map app].
    rewrite app_nil_r. symmetry. now apply cut_short.
  - assert (Hne : features (from_dict data) <> []) by (rewrite Hfs; discriminate).
    rewrite (after_response_nonempty _ _ _ _ Hne).
    set (all' := all_plants st ++ _).
    assert (Hrec : forall log,
               all_plants st
               ++ received ({| sent := current_params params batch_size (offset st);
                               got := Ok data |} :: log)
               = all' ++ received log).
    { intros log. subst all'. unfold received. cbn [flat_map got].
      now rewrite app_assoc. }
    destruct (truthy limit && (default 0 limit <=? len all')) eqn:Hreach.
    + cbn [fst snd]. intros [= <-]. rewrite Hrec. unfold received. cbn [flat_map].
      rewrite app_nil_r. unfold cut.
      apply andb_true_iff in Hreach as [-> _]. reflexivity.
    + assert (Hshort : truthy limit = true ->
                       all' = [] \/ len all' < default 0 limit).
      { intros Ht. rewrite Ht in Hreach. cbn in Hreach.
        apply Z.leb_gt in Hreach. now right. }
      destruct ((len (features (from_dict data)) <? batch_size)
                || exceeded_transfer_limit (from_dict data)).
      * cbn [fst snd]. intros [= <-]. rewrite Hrec. unfold received.
        cbn [flat_map]. rewrite app_nil_r. symmetry. now apply cut_short.
      * cbn [fst snd]. intros Hret. rewrite Hrec.
        apply (IH {| all_plants := all';
                     offset := offset st + len (features (from_dict data)) |});
          [exact Hshort | exact Hret].
Qed.

(** Every request of the loop is the query with an offset and, where the
    query has none, the page size. *)
Lemma loop_requests_params (fuel : nat) (st : loop_state) :
  Forall (fun ex => exists o, sent ex = current_params params batch_size o)
         (fst (loop fuel self url params limit batch_size st)).
Proof.
  revert st. induction fuel as [|fuel IH]; intros st; [constructor|].
  rewrite loop_pass. cbn zeta. cbn [got].
  destruct (_make_request self url _) as [data|e].
  - destruct (after_response limit batch_size st (from_dict data)) as [st'| |];
      cbn [fst]; constructor; eauto.
  - cbn [fst]. constructor; eauto.
Qed.

End Loop.

(** X2. A call is all or nothing: it returns plants only if every request
    it made was answered.  A request that raises is the last request of
    the call, and the call raises its exception; whenever the call raises
    after a request, the requests before the last one were answered (their
    plants are dropped). *)
Theorem get_power_plants_all_or_nothing (self : client) (h : store)
    (service : string) (query_params : option nat) (limit : option Z)
    (fuel : nat) :
  let r := get_power_plants self h service query_params limit fuel in
  (forall plants, ended r = Returned plants -> Forall answered (requests r))
  /\ (forall ex e, In ex (requests r) -> got ex = Raise e ->
        ended r = Raised e
        /\ exists log, requests r = log ++ [ex] /\ Forall answered log)
  /\ (forall e, ended r = Raised e -> requests r <> [] ->
        exists log ex, requests r = log ++ [ex] /\ Forall answered log).
Proof.
  intros r. subst r. unfold ended, requests, get_power_plants.
  destruct (SERVICES !! service) as [path|].
  - destruct (resolve_query_params h query_params) as [h1 l]. cbn [fst snd].
    match goal with |- context [loop fuel self ?u ?p limit ?b ?st] =>
      destruct (loop_all_or_nothing self u p limit b fuel st) as [Hfail Hend];
      destruct (loop fuel self u p limit b st) as [log out] end.
    cbn [fst snd] in *. split; [|split].
    + intros plants ->. exact Hend.
    + exact Hfail.
    + intros e -> _. exact Hend.
  - cbn [fst snd]. split; [discriminate|]. split.
    + intros ex e [].
    + intros e _ Hne. congruence.
Qed.

Lemma get_power_plants_all_or_nothing_witness :
  let r := get_power_plants unreachable ∅ "all_plants" None None 3 in
  exists log ex, requests r = log ++ [ex] /\ Forall answered log.
Proof.
  intros r.
  apply (proj2 (proj2 (get_power_plants_all_or_nothing unreachable ∅ "all_plants"
                         None None 3))
           (RequestException "connection refused")).
  - vm_compute. reflexivity.
  - vm_compute. discriminate.
Defined.

End Requests.

(** ** The query parameters as a request dict *)

Section QueryParams.
Import Models.

Lemma lookup_set_if_some {A} (key : string) (inj : A -> param)
    (field : option A) (params : gmap string param) (k : string) :
  set_if_some key inj field params !! k
  = if decide (key = k)
    then match field with Some v => Some (inj v) | None => params !! k end
    else params !! k.
Proof.
  unfold set_if_some. destruct field as [v|].
  - rewrite lookup_insert. now destruct (decide (key = k)).
  - now destruct (decide (key = k)) as [->|].
Qed.

Lemma to_dict_fields (q : PowerPlantQueryParams) :
  to_dict q !! "where" = Some (PStr (where_clause q))
  /\ to_dict q !! "outFields" = Some (PStr (out_fields q))
  /\ to_dict q !! "outSR" = Some (PInt (out_sr q))
  /\ to_dict q !! "returnGeometry"
     = Some (PStr (if return_geometry q then "true" else "false"))
  /\ to_dict q !! "f" = Some (PStr (f q))
  /\ to_dict q !! "resultRecordCount" = PInt <$> result_record_count q
  /\ to_dict q !! "resultOffset" = PInt <$> result_offset q
  /\ to_dict q !! "orderByFields" = PStr <$> order_by_fields q.
Proof.
  unfold to_dict. cbn zeta.
  repeat split; rewrite ?lookup_set_if_some.
  all: repeat (rewrite decide_False by discriminate);
       try rewrite decide_True by reflexivity;
       repeat (rewrite lookup_insert_ne by discriminate);
       try rewrite lookup_insert_eq; try reflexivity;
       match goal with |- context [match ?o with _ => _ end] => now destruct o end.
Qed.

(** X3. The request dict of query parameters has the five keys [where],
    [outFields], [outSR], [returnGeometry] and [f] with the values of the
    fields ([returnGeometry] as the text true or false), has
    [resultRecordCount], [resultOffset] and [orderByFields] exactly when the
    field is not [None], and has no other key. *)
Theorem to_dict_lookup (q : PowerPlantQueryParams) :
  to_dict q !! "where" = Some (PStr (where_clause q))
  /\ to_dict q !! "outFields" = Some (PStr (out_fields q))
  /\ to_dict q !! "outSR" = Some (PInt (out_sr q))
  /\ to_dict q !! "returnGeometry"
     = Some (PStr (if return_geometry q then "true" else "false"))
  /\ to_dict q !! "f" = Some (PStr (f q))
  /\ to_dict q !! "resultRecordCount" = PInt <$> result_record_count q
  /\ to_dict q !! "resultOffset" = PInt <$> result_offset q
  /\ to_dict q !! "orderByFields" = PStr <$> order_by_fields q
  /\ (forall k, ~ In k request_keys -> to_dict q !! k = None).
Proof.
  destruct (to_dict_fields q) as (H1 & H2 & H3 & H4 & H5 & H6 & H7 & H8).
  repeat split; try assumption.
  intros k Hk. unfold request_keys in Hk. cbn [In] in Hk.
  unfold to_dict. cbn zeta. rewrite !lookup_set_if_some.
  repeat (rewrite decide_False by tauto).
  repeat (rewrite lookup_insert_ne by tauto). apply lookup_empty.
Qed.

(** X4. The request dict tells the query parameters apart: two queries
    with the same dict have the same fields. *)
Theorem to_dict_injective (q q' : PowerPlantQueryParams) :
  to_dict q = to_dict q' -> q = q'.
Proof.
  intros Heq.
  destruct (to_dict_fields q) as (H1 & H2 & H3 & H4 & H5 & H6 & H7 & H8).
  destruct (to_dict_fields q') as (H1' & H2' & H3' & H4' & H5' & H6' & H7' & H8').
  rewrite Heq in *.
  destruct q as [w o sr rrc ro ob rg ff], q' as [w' o' sr' rrc' ro' ob' rg' ff'].
  cbn in *.
  assert (w = w') by congruence. assert (o = o') by congruence.
  assert (sr = sr') by congruence. assert (ff = ff') by congruence.
  assert (rg = rg') by (destruct rg, rg'; congruence).
  assert (rrc = rrc') by (destruct rrc, rrc'; cbn in *; congruence).
  assert (ro = ro') by (destruct ro, ro'; cbn in *; congruence).
  assert (ob = ob') by (destruct ob, ob'; cbn in *; congruence).
  congruence.
Qed.

Lemma to_dict_injective_witness :
  EIAAtlasClient.set_result_record_count None default_query_params
  = default_query_params.
Proof.
  apply to_dict_injective. vm_compute. reflexivity.
Defined.

End QueryParams.

(** ** What a call returns, sends and when it ends *)

Section Calls.
Import Models EIAAtlasClient Scenarios.

(** X5. What a call returns is what its requests received: the plants of
    all features of all pages in the order received, cut to the limit when
    a limit is given. *)
Theorem get_power_plants_returns_received (self : client) (h : store)
    (service : string) (query_params : option nat) (limit : option Z)
    (fuel : nat) (plants : list PowerPlant) :
  let r := get_power_plants self h service query_params limit fuel in
  ended r = Returned plants ->
  plants = cut limit (received (requests r)).
Proof.
  intros r. subst r. unfold ended, requests, get_power_plants.
  destruct (SERVICES !! service) as [path|]; [|discriminate].
  destruct (resolve_query_params h query_params) as [h1 l]. cbn [fst snd].
  intros Hret.
  apply (loop_returns_received _ _ _ _ _ fuel {| all_plants := []; offset := 0 |});
    [intros _; now left | exact Hret].
Qed.

Lemma get_power_plants_returns_received_witness :
  let r := get_power_plants (honest_service 2500) ∅ "wind_plants" None None 5 in
  let plants := replicate 2500 (_parse_feature_to_power_plant (feature_of "Wind")) in
  ended r = Returned plants /\ plants = cut None (received (requests r)).
Proof.
  intros r plants.
  assert (H : ended r = Returned plants) by (vm_compute; reflexivity).
  split; [exact H|].
  exact (get_power_plants_returns_received (honest_service 2500) ∅ "wind_plants"
           None None 5 plants H).
Defined.

(** The page size a query asks for: its own, or 1000. *)
Lemma current_params_lookup (params : gmap string param) (batch_size o : Z)
    (k : string) :
  current_params params batch_size o !! k
  = if decide (k = "resultOffset") then Some (PInt o)
    else if decide (k = "resultRecordCount")
    then Some (default (PInt batch_size) (params !! "resultRecordCount"))
    else params !! k.
Proof.
  unfold current_params. rewrite (lookup_insert_ne params "resultOffset" "resultRecordCount")
    by discriminate.
  destruct (params !! "resultRecordCount") as [c|] eqn:Hc.
  - rewrite lookup_insert. destruct (decide ("resultOffset" = k)) as [<-|Hne].
    + now rewrite decide_True.
    + rewrite decide_False by congruence.
      destruct (decide (k = "resultRecordCount")) as [->|]; [exact Hc | reflexivity].
  - rewrite lookup_insert. destruct (decide ("resultRecordCount" = k)) as [<-|Hne].
    + rewrite decide_False by discriminate. now rewrite decide_True.
    + rewrite lookup_insert. destruct (decide ("resultOffset" = k)) as [<-|Hne'].
      * now rewrite decide_True.
      * rewrite !decide_False by congruence. reflexivity.
Qed.

(** X6. Every request of a call repeats the caller's query, its filter,
    fields, spatial reference, geometry flag, format and ordering, and asks
    for a page of the limit when a limit is given, else of the query's own
    page size, else of 1000. *)
Theorem get_power_plants_requests_repeat_query (self : client) (h : store)
    (service : string) (l : nat) (q : PowerPlantQueryParams)
    (limit : option Z) (fuel : nat) :
  h !! l = Some q ->
  Forall
    (fun ex =>
       sent ex !! "where" = Some (PStr (where_clause q))
       /\ sent ex !! "outFields" = Some (PStr (out_fields q))
       /\ sent ex !! "outSR" = Some (PInt (out_sr q))
       /\ sent ex !! "returnGeometry"
          = Some (PStr (if return_geometry q then "true" else "false"))
       /\ sent ex !! "f" = Some (PStr (f q))
       /\ sent ex !! "orderByFields" = PStr <$> order_by_fields q
       /\ sent ex !! "resultRecordCount"
          = Some (PInt (if truthy limit then default 0 limit
                        else default 1000 (result_record_count q))))
    (requests (get_power_plants self h service (Some l) limit fuel)).
Proof.
  intros Hq. unfold requests.
  destruct (SERVICES !! service) as [path|] eqn:Hs;
    [|unfold get_power_plants; rewrite Hs; constructor].
  rewrite (get_power_plants_run _ _ _ _ _ _ _ Hs). cbn [fst snd resolve_query_params].
  rewrite (lookup_total_correct _ _ _ Hq).
  set (q' := if truthy limit then set_result_record_count limit q else q).
  eapply Forall_impl; [apply loop_requests_params|].
  intros ex [o ->]. rewrite !current_params_lookup.
  repeat (rewrite decide_False by discriminate).
  rewrite decide_True by reflexivity.
  destruct (to_dict_fields q') as (H1 & H2 & H3 & H4 & H5 & H6 & H7 & H8).
  rewrite H1, H2, H3, H4, H5, H6, H8. subst q'.
  destruct limit as [n|]; cbn [truthy];
    [destruct (n =? 0); cbn [negb]|];
    repeat split; unfold batch_size_of; destruct (result_record_count q);
    reflexivity.
Qed.

Lemma get_power_plants_requests_repeat_query_witness :
  Forall
    (fun ex =>
       sent ex !! "where" = Some (PStr "1=1")
       /\ sent ex !! "outFields" = Some (PStr "*")
       /\ sent ex !! "outSR" = Some (PInt 4326)
       /\ sent ex !! "returnGeometry" = Some (PStr "true")
       /\ sent ex !! "f" = Some (PStr "json")
       /\ sent ex !! "orderByFields" = None
       /\ sent ex !! "resultRecordCount" = Some (PInt 2))
    (requests (get_power_plants three_per_page {[ 0%nat := pages_of_two ]}
                 "all_plants" (Some 0%nat) None 10)).
Proof.
  exact (get_power_plants_requests_repeat_query three_per_page
           {[ 0%nat := pages_of_two ]} "all_plants" 0%nat pages_of_two None 10
           eq_refl).
Defined.

Lemma offset_of_current_params (params : gmap string param) (batch_size o : Z) :
  offset_of (current_params params batch_size o) = o.
Proof. unfold offset_of. now rewrite current_params_offset. Qed.

Lemma make_request_body (self : client) (url : string)
    (params : gmap string param) (data : Wire.Data) :
  session_get self url params = Body data -> Wire.error data = None ->
  _make_request self url params = Ok data.
Proof. intros Hget Herr. unfold _make_request. now rewrite Hget, Herr. Qed.

Lemma loop_ends_when_exhausted (self : client) (url : string)
    (params : gmap string param) (limit : option Z) (batch_size n : Z)
    (fuel : nat) (st : loop_state) :
  exhausted_from self n ->
  (Z.to_nat (n - offset st) < fuel)%nat ->
  snd (loop fuel self url params limit batch_size st) <> OutOfFuel.
Proof.
  intros Hex. revert st. induction fuel as [|fuel IH]; intros st Hfuel; [lia|].
  rewrite loop_pass. cbn zeta. cbn [got].
  destruct (_make_request self url _) as [data|e] eqn:Hreq; [|discriminate].
  destruct (after_response limit batch_size st (from_dict data)) as [st'| |] eqn:Hstep;
    try discriminate.
  cbn [snd]. apply after_response_continue in Hstep as (Hoff & _ & Hne & _).
  assert (Hlt : offset st < n).
  { destruct (Z.lt_ge_cases (offset st) n) as [Hlt|Hge]; [exact Hlt|].
    destruct (Hex url (current_params params batch_size (offset st)))
      as (data' & Hget & Herr & Hnil).
    { now rewrite offset_of_current_params. }
    rewrite (make_request_body _ _ _ _ Hget Herr) in Hreq.
    injection Hreq as <-. congruence. }
  assert (1 <= len (features (from_dict data))).
  { destruct (features (from_dict data)); [congruence|]. unfold len. simpl. lia. }
  apply IH. lia.
Qed.

(** X7. The loop ends once the service has nothing more to give: if
    every request from some offset [n] on is answered with an empty page,
    a call has returned or raised within [n + 1] passes, with or without a
    limit. *)
Theorem get_power_plants_ends_when_exhausted (self : client) (h : store)
    (service : string) (query_params : option nat) (limit : option Z)
    (n : Z) (fuel : nat) :
  exhausted_from self n -> (Z.to_nat n < fuel)%nat ->
  ended (get_power_plants self h service query_params limit fuel) <> OutOfFuel.
Proof.
  intros Hex Hfuel. unfold ended, get_power_plants.
  destruct (SERVICES !! service) as [path|]; [|discriminate].
  destruct (resolve_query_params h query_params) as [h1 l]. cbn [snd].
  apply (loop_ends_when_exhausted _ _ _ _ _ n); [exact Hex|].
  cbn [offset]. now rewrite Z.sub_0_r.
Qed.

Lemma get_power_plants_ends_when_exhausted_witness :
  ended (get_power_plants three_per_page ∅ "all_plants" None None 7) <> OutOfFuel.
Proof.
  apply (get_power_plants_ends_when_exhausted three_per_page ∅ "all_plants"
           None None 6 7).
  - intros url params Hoff. eexists. cbn.
    rewrite (proj2 (Z.ltb_ge _ _) Hoff). repeat split.
  - cbn. lia.
Defined.

Lemma count_of_current_params (params : gmap string param) (batch_size o : Z) :
  params !! "resultRecordCount" = None
  \/ params !! "resultRecordCount" = Some (PInt batch_size) ->
  count_of (current_params params batch_size o) = batch_size.
Proof.
  intros Hc. unfold count_of. rewrite current_params_lookup.
  rewrite decide_False by discriminate. rewrite decide_True by reflexivity.
  now destruct Hc as [-> | ->].
Qed.

Lemma loop_fetches_all (self : client) (url : string)
    (params : gmap string param) (batch_size total : Z) (fuel : nat)
    (st : loop_state) :
  serves_records self total ->
  params !! "resultRecordCount" = None
  \/ params !! "resultRecordCount" = Some (PInt batch_size) ->
  0 < batch_size ->
  offset st = len (all_plants st) -> offset st <= total ->
  total - offset st < batch_size * Z.of_nat fuel ->
  exists plants,
    snd (loop fuel self url params None batch_size st) = Returned plants
    /\ len plants = total.
Proof.
  intros Hserve Hc Hb. revert st.
  induction fuel as [|fuel IH]; intros st Hoff Hle Hfuel; [lia|].
  rewrite loop_pass. cbn zeta. cbn [got].
  destruct (Hserve url (current_params params batch_size (offset st)))
    as (data & Hget & Herr & Hflag & Hlen).
  rewrite offset_of_current_params, count_of_current_params in Hlen by exact Hc.
  rewrite (make_request_body _ _ _ _ Hget Herr).
  destruct (features (from_dict data)) as [|ft fts] eqn:Hfs.
  - unfold after_response. rewrite Hfs. cbn [snd].
    exists (all_plants st). split; [reflexivity|].
    unfold len in Hlen. cbn in Hlen. lia.
  - assert (Hne : features (from_dict data) <> []) by (rewrite Hfs; discriminate).
    rewrite <- Hfs in Hlen.
    rewrite (after_response_nonempty _ _ _ _ Hne). cbn [truthy andb].
    rewrite Hflag, orb_false_r.
    assert (Hall : len (all_plants st
                        ++ map _parse_feature_to_power_plant (features (from_dict data)))
                   = offset st + len (features (from_dict data))).
    { unfold len. rewrite length_app, List.length_map. unfold len in Hoff. lia. }
    destruct (Z.ltb_spec (len (features (from_dict data))) batch_size) as [Hshort|Hfull].
    + cbn [snd]. eexists. split; [reflexivity|]. rewrite Hall. lia.
    + cbn [snd]. apply IH; cbn [offset all_plants]; [now rewrite Hall | lia | nia].
Qed.

(** X8. Against a service that holds [total] records, serves each request
    the records it asks for, or as many as are left, and never sets the
    transfer-limit flag, a call without a limit returns exactly [total]
    plants, given one pass per thousand records and one more. *)
Theorem get_power_plants_fetches_all (self : client) (h : store)
    (service path : string) (total : Z) (fuel : nat) :
  SERVICES !! service = Some path ->
  serves_records self total -> 0 <= total ->
  total < 1000 * Z.of_nat fuel ->
  exists plants,
    ended (get_power_plants self h service None None fuel) = Returned plants
    /\ len plants = total.
Proof.
  intros Hs Hserve Htotal Hfuel. unfold ended.
  rewrite (get_power_plants_run _ _ _ _ _ _ _ Hs).
  cbn [fst snd resolve_query_params truthy].
  rewrite lookup_total_insert_eq.
  apply (loop_fetches_all _ _ _ _ total); try assumption; try reflexivity.
  - left. reflexivity.
  - cbn [offset]. change (batch_size_of default_query_params) with 1000. lia.
Qed.

Lemma get_power_plants_fetches_all_witness :
  exists plants,
    ended (get_power_plants (honest_service 2500) ∅ "wind_plants" None None 3)
    = Returned plants
    /\ len plants = 2500.
Proof.
  apply (get_power_plants_fetches_all (honest_service 2500) ∅ "wind_plants"
           "Wind_Power_Plants/FeatureServer/0" 2500 3).
  - vm_compute. reflexivity.
  - intros url params. eexists. repeat split.
    unfold len. cbn [features from_dict page Wire.features default from_option id].
    rewrite length_replicate. lia.
  - lia.
  - lia.
Defined.

Lemma loop_never_ends (self : client) (url : string)
    (params : gmap string param) (batch_size : Z) (n : nat) (fuel : nat)
    (st : loop_state) :
  serves_pages_of self n -> (0 < n)%nat -> batch_size <= Z.of_nat n ->
  snd (loop fuel self url params None batch_size st) = OutOfFuel
  /\ length (fst (loop fuel self url params None batch_size st)) = fuel.
Proof.
  intros Hserve Hn Hb. revert st. induction fuel as [|fuel IH]; intros st;
    [split; reflexivity|].
  rewrite loop_pass. cbn zeta. cbn [got].
  destruct (Hserve url (current_params params batch_size (offset st)))
    as (data & Hget & Herr & Hlen & Hflag).
  rewrite (make_request_body _ _ _ _ Hget Herr).
  assert (Hne : features (from_dict data) <> []).
  { intros Hnil. rewrite Hnil in Hlen. cbn in Hlen. lia. }
  rewrite (after_response_nonempty _ _ _ _ Hne). cbn [truthy andb].
  match goal with |- context [Continue ?s] => destruct (IH s) as [Hout Hlog] end.
  assert (Hfull : (len (features (from_dict data)) <? batch_size) = false).
  { apply Z.ltb_ge. unfold len. rewrite Hlen. exact Hb. }
  rewrite Hflag, orb_false_r, Hfull. cbn [fst snd length].
  split; [exact Hout | now rewrite Hlog].
Qed.

(** X9. The loop has no cap of its own: against a service that answers
    every request with a full page (1000 features or more, flag off), a
    call without a limit is still asking after any number of passes. *)
Theorem get_power_plants_never_ends_on_full_pages (self : client) (h : store)
    (service path : string) (n : nat) (fuel : nat) :
  SERVICES !! service = Some path ->
  serves_pages_of self n -> (1000 <= n)%nat ->
  let r := get_power_plants self h service None None fuel in
  ended r = OutOfFuel /\ length (requests r) = fuel.
Proof.
  intros Hs Hserve Hn r. subst r. unfold ended, requests.
  rewrite (get_power_plants_run _ _ _ _ _ _ _ Hs).
  cbn [fst snd resolve_query_params truthy].
  rewrite lookup_total_insert_eq.
  apply (loop_never_ends _ _ _ _ n); [exact Hserve | lia|].
  change (batch_size_of default_query_params) with 1000. lia.
Qed.

Lemma get_power_plants_never_ends_on_full_pages_witness :
  let r := get_power_plants (pages_of 1000 false) ∅ "all_plants" None None 4 in
  ended r = OutOfFuel /\ length (requests r) = 4%nat.
Proof.
  apply (get_power_plants_never_ends_on_full_pages (pages_of 1000 false) ∅
           "all_plants" "ElectricPowerPlants/FeatureServer/0" 1000 4).
  - vm_compute. reflexivity.
  - intros url params. eexists. repeat split.
  - lia.
Defined.

End Calls.

(** ** The queries by state and of renewable plants *)

Section Queries.
Import Models EIAAtlasClient Scenarios EIAAtlasQueries.

Lemma lookup_alloc (h : store) (q : PowerPlantQueryParams) :
  fst (alloc h q) !! snd (alloc h q) = Some q
  /\ (forall l, is_Some (h !! l) -> fst (alloc h q) !! l = h !! l).
Proof.
  unfold alloc. cbn [fst snd]. split; [apply lookup_insert_eq|].
  intros l Hl. apply lookup_insert_ne. intros <-.
  apply elem_of_dom in Hl. now apply is_fresh in Hl.
Qed.

(** X10. A query by state sends, with every request, the filter
    [StateName = '<state>' OR StateName LIKE '%<state>%'] built from the
    state as it is given, and returns what its requests received, cut to
    the limit: nothing is filtered on the client, neither by state nor by
    energy type.  The objects of the caller's store are left as they
    were. *)
Theorem get_plants_by_state_sends_filter (self : client) (h : store)
    (state : string) (energy_type : option EnergyType) (limit : option Z)
    (fuel : nat) :
  let r := get_plants_by_state self h state energy_type limit fuel in
  Forall (fun ex => sent ex !! "where" = Some (PStr (state_where_clause state)))
         (requests r)
  /\ (forall plants, ended r = Returned plants ->
        plants = cut limit (received (requests r)))
  /\ (forall l, is_Some (h !! l) -> fst r !! l = h !! l).
Proof.
  intros r. subst r. unfold get_plants_by_state. cbn zeta.
  destruct (lookup_alloc h (query_where (state_where_clause state))) as [Hnew Hold].
  destruct (alloc h (query_where (state_where_clause state))) as [h1 l] eqn:Halloc.
  cbn [fst snd] in Hnew, Hold.
  set (service := match energy_type with Some t => _ | None => _ end).
  unfold requests, ended.
  destruct (SERVICES !! service) as [path|] eqn:Hs.
  - rewrite (get_power_plants_run _ _ _ _ _ _ _ Hs).
    cbn [fst snd resolve_query_params].
    rewrite (lookup_total_correct _ _ _ Hnew).
    set (q := if truthy limit then _ else _).
    assert (Hwhere : where_clause q = state_where_clause state)
      by (subst q; now destruct (truthy limit)).
    repeat split.
    + eapply Forall_impl; [apply loop_requests_params|].
      intros ex [o ->]. rewrite current_params_lookup.
      rewrite !decide_False by discriminate.
      destruct (to_dict_fields q) as (-> & _). now rewrite Hwhere.
    + intros plants Hret.
      apply (loop_returns_received _ _ _ _ _ fuel {| all_plants := []; offset := 0 |});
        [intros _; now left | exact Hret].
    + intros l' Hl'. destruct (truthy limit); [|now apply Hold].
      rewrite lookup_insert_ne; [now apply Hold|].
      intros <-. rewrite Hold in Hnew by exact Hl'.
      apply (f_equal snd) in Halloc. cbn in Halloc. subst l.
      apply elem_of_dom in Hl'. now apply is_fresh in Hl'.
  - unfold get_power_plants. rewrite Hs. cbn [fst snd].
    repeat split; [constructor | discriminate | exact Hold].
Qed.

Lemma get_plants_by_state_sends_filter_witness :
  let r := get_plants_by_state mixed_plants ∅ "Texas" (Some BIOMASS) None 3 in
  Forall (fun ex =>
            sent ex !! "where"
            = Some (PStr "StateName = 'Texas' OR StateName LIKE '%Texas%'"))
         (requests r).
Proof.
  exact (proj1 (get_plants_by_state_sends_filter mixed_plants ∅ "Texas"
                  (Some BIOMASS) None 3)).
Defined.

Lemma get_power_plants_default_page_size (self : client) (h : store)
    (service : string) (fuel : nat) :
  Forall (fun ex => sent ex !! "resultRecordCount" = Some (PInt 1000))
         (requests (get_power_plants self h service None None fuel)).
Proof.
  unfold requests.
  destruct (SERVICES !! service) as [path|] eqn:Hs;
    [|unfold get_power_plants; rewrite Hs; constructor].
  rewrite (get_power_plants_run _ _ _ _ _ _ _ Hs).
  cbn [fst snd resolve_query_params truthy]. rewrite lookup_total_insert_eq.
  eapply Forall_impl; [apply loop_requests_params|].
  intros ex [o ->]. rewrite current_params_lookup.
  rewrite decide_False by discriminate. rewrite decide_True by reflexivity.
  reflexivity.
Qed.

Lemma get_plants_by_energy_type_default_page_size (self : client) (h : store)
    (energy_type : EnergyType) (fuel : nat) :
  Forall (fun ex => sent ex !! "resultRecordCount" = Some (PInt 1000))
         (requests (get_plants_by_energy_type self h energy_type None fuel)).
Proof.
  unfold get_plants_by_energy_type.
  destruct (dict_get service_mapping energy_type) as [service|].
  - apply get_power_plants_default_page_size.
  - pose proof (get_power_plants_default_page_size self h "all_plants" fuel) as H.
    destruct (get_power_plants self h "all_plants" None None fuel) as [h' [log out]].
    exact H.
Qed.

Lemma renewable_loop_default_page_size (self : client) (types : list EnergyType)
    (limit : option Z) (fuel : nat) (h : store) (all_renewable : list PowerPlant) :
  Forall (fun ex => sent ex !! "resultRecordCount" = Some (PInt 1000))
         (requests (renewable_loop self h types limit fuel all_renewable)).
Proof.
  revert h all_renewable. induction types as [|t types IH]; intros h all_renewable;
    [constructor|].
  cbn [renewable_loop].
  pose proof (get_plants_by_energy_type_default_page_size self h t fuel) as Hfirst.
  destruct (get_plants_by_energy_type self h t None fuel) as [h' [log out]].
  unfold requests in *. cbn [fst snd] in Hfirst.
  destruct out as [plants| |]; try exact Hfirst.
  destruct (truthy limit && _); [exact Hfirst|].
  specialize (IH h' (all_renewable ++ plants)).
  destruct (renewable_loop self h' types limit fuel (all_renewable ++ plants))
    as [h'' [log' out']].
  cbn [fst snd] in *. apply Forall_app. now split.
Qed.

Lemma slice_to_bound {A} (n : Z) (xs : list A) :
  0 <= n -> len (slice_to n xs) <= n.
Proof.
  intros Hn. unfold slice_to, len. rewrite (proj2 (Z.leb_le _ _) Hn).
  rewrite length_take. lia.
Qed.

(** X11. The query of renewable plants fetches each type in full: every
    request asks for a page of 1000, whatever the limit, which is applied
    only to the plants gathered; with a limit above 0 at most that many
    plants are returned. *)
Theorem get_renewable_plants_limit_applied_after (self : client) (h : store)
    (limit : option Z) (fuel : nat) :
  let r := get_renewable_plants self h limit fuel in
  Forall (fun ex => sent ex !! "resultRecordCount" = Some (PInt 1000))
         (requests r)
  /\ (forall n plants, limit = Some n -> 0 < n ->
        ended r = Returned plants -> len plants <= n).
Proof.
  intros r. subst r. unfold get_renewable_plants.
  pose proof (renewable_loop_default_page_size self renewable_types limit fuel h [])
    as Hreq.
  destruct (renewable_loop self h renewable_types limit fuel []) as [h' [log out]].
  unfold requests, ended in *. cbn [fst snd] in *. split; [exact Hreq|].
  intros n plants -> Hn. destruct out as [all| |]; try discriminate.
  intros [= <-]. cbn [truthy]. rewrite (proj2 (Z.eqb_neq n 0)) by lia.
  cbn [negb default from_option id]. apply slice_to_bound. lia.
Qed.

Lemma get_renewable_plants_limit_applied_after_witness :
  let r := get_renewable_plants mixed_plants ∅ (Some 2) 3 in
  let plants :=
    map _parse_feature_to_power_plant [feature_of "Coal"; feature_of "Wood/Biomass"] in
  ended r = Returned plants /\ len plants <= 2.
Proof.
  intros r plants.
  assert (H : ended r = Returned plants) by (vm_compute; reflexivity).
  split; [exact H|].
  exact (proj2 (get_renewable_plants_limit_applied_after mixed_plants ∅ (Some 2) 3)
           2 plants eq_refl eq_refl H).
Defined.

End Queries.

(** ** The filters on lists of plants *)

Section Filters.
Import Models PowerPlantFilter.

(** X12. Keeping the renewable plants is filtering by the five renewable
    types, and filtering by pumped storage alone keeps nothing, whatever
    the plants: no primary source is classified as pumped storage. *)
Theorem filter_renewable_only_by_types (plants : list PowerPlant) :
  filter_renewable_only plants
  = filter_by_energy_types plants [SOLAR; WIND; HYDRO; GEOTHERMAL; BIOMASS]
  /\ filter_by_energy_types plants [HYDRO_PUMPED] = [].
Proof.
  unfold filter_renewable_only, filter_by_energy_types. split.
  - apply list_filter_iff. intros plant. unfold is_renewable.
    rewrite bool_decide_eq_true. reflexivity.
  - induction plants as [|plant plants IH]; [reflexivity|].
    rewrite filter_cons. destruct (decide _) as [Hin|_]; [|exact IH].
    apply list_elem_of_singleton in Hin.
    now apply classify_never_hydro_pumped in Hin.
Qed.

(** X13. Filtering by states compares whole names without regard to
    case: a plant is kept exactly when its state, lower-cased, is the
    lower-cased form of one of the states asked for; the plants kept stay
    in their order. *)
Theorem filter_by_states_whole_name_any_case (plants : list PowerPlant)
    (states : list string) (plant : PowerPlant) :
  (plant ∈ filter_by_states plants states
   <-> plant ∈ plants
       /\ exists s, s ∈ states /\ lower s = lower (state (location plant)))
  /\ filter_by_states plants (map lower states) = filter_by_states plants states
  /\ sublist (filter_by_states plants states) plants.
Proof.
  unfold filter_by_states. cbn zeta. split; [|split].
  - rewrite list_elem_of_filter, list_elem_of_fmap. split.
    + intros [(s & Heq & Hs) Hin]. split; [exact Hin | now exists s].
    + intros [Hin (s & Hs & Heq)]. split; [now exists s | exact Hin].
  - rewrite map_map.
    rewrite (map_ext (fun s => lower (lower s)) lower) by apply lower_idempotent.
    reflexivity.
  - apply sublist_filter.
Qed.

Lemma capacity_loop_field (plants kept : list PowerPlant)
    (min_capacity max_capacity : option float) (capacity_type : string) :
  ~ capacity_type ∈ capacity_methods ->
  capacity_loop plants min_capacity max_capacity capacity_type kept
  = Filtered
      (kept ++ filter (fun plant =>
                         in_capacity_range min_capacity max_capacity
                                           capacity_type plant = true)
                      plants).
Proof.
  intros Hm. revert kept. induction plants as [|plant plants IH]; intros kept.
  - cbn. now rewrite app_nil_r.
  - cbn [capacity_loop]. rewrite filter_cons.
    destruct (getattr_capacity (capacity plant) capacity_type) as [v| |] eqn:Hg.
    + destruct (match min_capacity with Some m => _ | None => false end) eqn:Hmin.
      { rewrite decide_False; [apply IH|].
        unfold in_capacity_range. rewrite Hg, Hmin. discriminate. }
      destruct (match max_capacity with Some m => _ | None => false end) eqn:Hmax.
      { rewrite decide_False; [apply IH|].
        unfold in_capacity_range. rewrite Hg, Hmin, Hmax. discriminate. }
      rewrite decide_True
        by (unfold in_capacity_range; now rewrite Hg, Hmin, Hmax).
      rewrite IH. now rewrite <- app_assoc.
    + rewrite decide_False; [apply IH|].
      unfold in_capacity_range. rewrite Hg. discriminate.
    + exfalso. unfold getattr_capacity in Hg.
      destruct (EIAAtlasClient.dict_get capacity_fields capacity_type) as [field|].
      * destruct (field (capacity plant)); discriminate.
      * rewrite decide_False in Hg by exact Hm. discriminate.
Qed.

(** X14. Filtering by a capacity range keeps, in their order, the plants
    whose capacity of the given name is a number within the bounds that are
    given; a plant without that capacity is dropped even when no bound is
    given, and a name the capacity record does not have keeps no plant at
    all, without an error.  (For names that do not begin with two
    underscores and are not methods.) *)
Theorem filter_by_capacity_range_keeps (plants : list PowerPlant)
    (min_capacity max_capacity : option float) (capacity_type : string) :
  starts_with capacity_type "__" = false ->
  ~ capacity_type ∈ capacity_methods ->
  filter_by_capacity_range plants min_capacity max_capacity capacity_type
  = Filtered (filter (fun plant =>
                        in_capacity_range min_capacity max_capacity
                                          capacity_type plant = true)
                     plants)
  /\ (EIAAtlasClient.dict_get capacity_fields capacity_type = None ->
      filter_by_capacity_range plants min_capacity max_capacity capacity_type
      = Filtered []).
Proof.
  intros _ Hm. unfold filter_by_capacity_range.
  rewrite (capacity_loop_field _ _ _ _ _ Hm). cbn [app]. split; [reflexivity|].
  intros Hnone. f_equal. induction plants as [|plant plants IH]; [reflexivity|].
  rewrite filter_cons, IH. apply decide_False.
  unfold in_capacity_range, getattr_capacity. rewrite Hnone.
  destruct (decide (capacity_type ∈ capacity_methods)); [contradiction | discriminate].
Qed.

Lemma filter_by_capacity_range_keeps_witness :
  filter_by_capacity_range [plant_with 1 "Texas" "Wind" None] None None "totalmw"
  = Filtered [].
Proof.
  apply (proj2 (filter_by_capacity_range_keeps
                  [plant_with 1 "Texas" "Wind" None] None None "totalmw"
                  eq_refl
                  ltac:(vm_compute; intros H; repeat (apply elem_of_cons in H as [H|H]; [discriminate|]); now apply elem_of_nil in H))).
  reflexivity.
Defined.

(** X15. With a method of the capacity record for a name and a bound
    given, filtering raises a [TypeError] at the first plant; without
    plants it returns the empty list. *)
Theorem filter_by_capacity_range_method (plant : PowerPlant)
    (plants : list PowerPlant) (min_capacity max_capacity : option float)
    (capacity_type : string) :
  capacity_type ∈ capacity_methods ->
  is_Some min_capacity \/ is_Some max_capacity ->
  filter_by_capacity_range (plant :: plants) min_capacity max_capacity capacity_type
  = TypeError
  /\ filter_by_capacity_range [] min_capacity max_capacity capacity_type
     = Filtered [].
Proof.
  intros Hm Hbound. split; [|reflexivity].
  unfold filter_by_capacity_range. cbn [capacity_loop].
  assert (Hattr : getattr_capacity (capacity plant) capacity_type = Method).
  { unfold getattr_capacity, capacity_methods in *.
    apply elem_of_cons in Hm as [->|Hm]; [reflexivity|].
    apply elem_of_cons in Hm as [->|Hm]; [reflexivity|].
    now apply elem_of_nil in Hm. }
  rewrite Hattr. destruct Hbound as [[m ->] | [m ->]]; [reflexivity|].
  now destruct min_capacity.
Qed.

Lemma filter_by_capacity_range_method_witness :
  filter_by_capacity_range [plant_with 1 "Texas" "Wind" None] (Some 10%float) None
                           "get_renewable_capacity"
  = TypeError.
Proof.
  apply (proj1 (filter_by_capacity_range_method
                  (plant_with 1 "Texas" "Wind" None) [] (Some 10%float) None
                  "get_renewable_capacity"
                  ltac:(apply elem_of_cons; now left)
                  ltac:(left; now eexists))).
Defined.

End Filters.

(** ** Years of data periods *)

Section Periods.
Import Models PowerPlantFilter.

Lemma string_app_cons (x : ascii) (a b : string) :
  (String x a ++ b)%string = String x (a ++ b)%string.
Proof. reflexivity. Qed.

Lemma string_app_assoc' (a b c : string) :
  ((a ++ b) ++ c)%string = (a ++ (b ++ c))%string.
Proof.
  induction a as [|x a IH]; [reflexivity|].
  now rewrite !string_app_cons, IH.
Qed.

Lemma digits_acc (fuel : nat) (n : Z) (acc : string) :
  digits fuel n acc = (digits fuel n "" ++ acc)%string.
Proof.
  revert n acc. induction fuel as [|fuel IH]; intros n acc; [reflexivity|].
  cbn [digits]. destruct (n <? 10); [reflexivity|].
  rewrite (IH _ (String _ acc)), (IH _ (String _ "")), string_app_assoc'.
  reflexivity.
Qed.

Lemma digits_more_fuel (fuel : nat) (n : Z) (acc : string) :
  (1 <= fuel)%nat -> 0 <= n < 10 ^ Z.of_nat fuel ->
  digits (S fuel) n acc = digits fuel n acc.
Proof.
  revert n acc. induction fuel as [|fuel IH]; intros n acc Hf Hn; [lia|].
  cbn [digits]. destruct (Z.ltb_spec n 10) as [Hlt|Hge]; [reflexivity|].
  assert (Hdiv : 0 <= n / 10 < 10 ^ Z.of_nat fuel).
  { split; [apply Z.div_pos; lia|].
    apply Z.div_lt_upper_bound; [lia|].
    rewrite Nat2Z.inj_succ, Z.pow_succ_r in Hn by lia. lia. }
  destruct fuel as [|fuel'].
  - cbn in Hdiv. assert (n / 10 = 0) by lia.
    assert (n < 10) by (apply Z.div_small_iff in H; lia). lia.
  - rewrite <- (IH (n / 10)) by (try lia; exact Hdiv). reflexivity.
Qed.

Lemma digits_enough (f1 f2 : nat) (n : Z) (acc : string) :
  (1 <= f1 <= f2)%nat -> 0 <= n < 10 ^ Z.of_nat f1 ->
  digits f2 n acc = digits f1 n acc.
Proof.
  intros [H1 H12] Hn. induction H12 as [|f2 H12 IH]; [reflexivity|].
  rewrite digits_more_fuel; [exact IH | lia|].
  split; [lia|]. eapply Z.lt_le_trans; [apply Hn|].
  apply Z.pow_le_mono_r; lia.
Qed.

(** The fuel [str_int] takes is enough. *)
Lemma log2_fuel (n : Z) :
  0 <= n -> n < 10 ^ Z.of_nat (S (Z.to_nat (Z.log2 n))).
Proof.
  intros Hn. rewrite Nat2Z.inj_succ, Z2Nat.id by apply Z.log2_nonneg.
  destruct (Z.eq_dec n 0) as [->|Hne]; [cbn; lia|].
  eapply Z.lt_le_trans; [apply Z.log2_spec; lia|].
  apply Z.pow_le_mono_l. lia.
Qed.

Lemma str_int_nonneg (n : Z) (fuel : nat) :
  0 <= n < 10 ^ Z.of_nat fuel -> (1 <= fuel)%nat ->
  str_int n = digits fuel n "".
Proof.
  intros Hn Hf. unfold str_int. rewrite (proj2 (Z.ltb_ge n 0)) by lia.
  destruct (Nat.le_ge_cases fuel (S (Z.to_nat (Z.log2 n)))) as [Hle|Hge].
  - apply digits_enough; [lia | exact Hn].
  - symmetry. apply digits_enough; [lia|]. split; [lia | apply log2_fuel; lia].
Qed.

(** The digits of ten times a number and a digit are the digits of the
    number and that digit. *)
Lemma str_int_snoc (q d : Z) :
  0 < q -> 0 <= d < 10 ->
  str_int (10 * q + d) = (str_int q ++ String (digit_char d) "")%string.
Proof.
  intros Hq Hd.
  pose (F := S (Z.to_nat (Z.log2 q))).
  assert (HF : 0 <= q < 10 ^ Z.of_nat F) by (split; [lia | apply log2_fuel; lia]).
  rewrite (str_int_nonneg (10 * q + d) (S F)).
  - cbn [digits]. rewrite (proj2 (Z.ltb_ge _ 10)) by lia.
    replace ((10 * q + d) / 10) with q by (apply Z.div_unique with d; lia).
    replace ((10 * q + d) mod 10) with d by (apply Z.mod_unique with q; lia).
    rewrite digits_acc. now rewrite (str_int_nonneg q F) by (try exact HF; lia).
  - split; [lia|]. rewrite Nat2Z.inj_succ, Z.pow_succ_r by lia. lia.
  - lia.
Qed.

Lemma str_int_digit (d : Z) :
  0 <= d < 10 -> str_int d = String (digit_char d) "".
Proof.
  intros Hd. rewrite (str_int_nonneg d 1) by (cbn; lia).
  cbn [digits]. rewrite (proj2 (Z.ltb_lt d 10)) by lia.
  now rewrite Z.mod_small by lia.
Qed.

Lemma digit_value_char (d : Z) :
  0 <= d < 10 -> digit_value (digit_char d) = Some d.
Proof.
  intros Hd.
  assert (Hc : d = 0 \/ d = 1 \/ d = 2 \/ d = 3 \/ d = 4 \/ d = 5 \/ d = 6
               \/ d = 7 \/ d = 8 \/ d = 9) by lia.
  repeat (destruct Hc as [-> | Hc]; [reflexivity|]). now subst d.
Qed.

Lemma int_digits_app (s t : string) (acc : Z) :
  int_digits (s ++ t)%string acc
  = match int_digits s acc with
    | Some a => int_digits t a
    | None => None
    end.
Proof.
  revert acc. induction s as [|c s IH]; intros acc; [reflexivity|].
  rewrite string_app_cons. cbn [int_digits].
  destruct (digit_value c); [apply IH | reflexivity].
Qed.


Lemma is_digits_app (s t : string) :
  is_digits (s ++ t)%string = is_digits s && is_digits t.
Proof.
  induction s as [|c s IH]; [reflexivity|].
  rewrite string_app_cons. cbn [is_digits].
  destruct (digit_value c); [exact IH | reflexivity].
Qed.


(** A text of digits is read as it stands, without a sign. *)
Lemma int_str_digits (c : ascii) (s : string) :
  is_digits (String c s) = true ->
  int_str (String c s) = int_digits (String c s) 0.
Proof.
  intros Hs. unfold int_str.
  destruct (Ascii.eqb_spec c "-") as [->|Hne]; [discriminate Hs|].
  destruct c as [[] [] [] [] [] [] [] []]; try reflexivity. now destruct Hne.
Qed.

Lemma str_int_is_digits (n : Z) :
  0 <= n -> is_digits (str_int n) = true /\ str_int n <> "".
Proof.
  intros Hn. pattern n. apply Wf_Z.Zlt_0_ind; [|exact Hn].
  clear n Hn. intros n IH Hn.
  destruct (Z.lt_ge_cases n 10) as [Hlt|Hge].
  - rewrite str_int_digit by lia. split; [|discriminate].
    cbn [is_digits]. now rewrite digit_value_char by lia.
  - assert (Hn10 : n = 10 * (n / 10) + n mod 10) by (Z.div_mod_to_equations; lia).
    assert (Hq : 0 < n / 10 < n) by (Z.div_mod_to_equations; lia).
    assert (Hd : 0 <= n mod 10 < 10) by (apply Z.mod_pos_bound; lia).
    destruct (IH (n / 10)) as [Hdig Hne]; [lia|].
    rewrite Hn10, str_int_snoc by lia. split.
    + rewrite is_digits_app, Hdig. cbn [is_digits andb].
      now rewrite digit_value_char.
    + destruct (str_int (n / 10)); [congruence | discriminate].
Qed.

Lemma int_digits_str_int (n : Z) :
  0 <= n -> int_digits (str_int n) 0 = Some n.
Proof.
  intros Hn. pattern n. apply Wf_Z.Zlt_0_ind; [|exact Hn].
  clear n Hn. intros n IH Hn.
  destruct (Z.lt_ge_cases n 10) as [Hlt|Hge].
  - rewrite str_int_digit by lia. cbn [int_digits].
    rewrite digit_value_char by lia. f_equal; lia.
  - assert (Hn10 : n = 10 * (n / 10) + n mod 10) by (Z.div_mod_to_equations; lia).
    assert (Hq : 0 < n / 10 < n) by (Z.div_mod_to_equations; lia).
    assert (Hd : 0 <= n mod 10 < 10) by (apply Z.mod_pos_bound; lia).
    rewrite Hn10 at 1. rewrite str_int_snoc, int_digits_app by lia.
    rewrite IH by lia. cbn [int_digits]. rewrite digit_value_char by lia.
    f_equal; lia.
Qed.


Lemma str_take_app (s t : string) :
  str_take (String.length s) (s ++ t)%string = s.
Proof.
  induction s as [|c s IH]; [now destruct t|].
  rewrite string_app_cons. cbn [String.length str_take]. now rewrite IH.
Qed.

Lemma str_take_nonempty (k : nat) (c : ascii) (s : string) :
  str_take (S k) (String c s) = String c (str_take k s).
Proof. reflexivity. Qed.

Lemma length_app_one (s : string) (c : ascii) :
  String.length (s ++ String c "")%string = S (String.length s).
Proof.
  induction s as [|x s IH]; [reflexivity|].
  rewrite string_app_cons. cbn [String.length]. now rewrite IH.
Qed.

(** A number below [10^k] has at most [k] digits, one from [10^(k-1)] on
    has at least [k]. *)
Lemma str_int_length (k : nat) (n : Z) :
  (1 <= k)%nat -> 0 <= n ->
  (n < 10 ^ Z.of_nat k -> (String.length (str_int n) <= k)%nat)
  /\ (10 ^ Z.of_nat (k - 1) <= n -> (k <= String.length (str_int n))%nat).
Proof.
  revert n. induction k as [|k IH]; intros n Hk Hn; [lia|].
  destruct (Z.lt_ge_cases n 10) as [Hlt|Hge].
  - rewrite str_int_digit by lia. cbn [String.length]. split; [lia|].
    intros Hlow. destruct k as [|k]; [lia|].
    replace (S (S k) - 1)%nat with (S k) in Hlow by lia.
    rewrite Nat2Z.inj_succ, Z.pow_succ_r in Hlow by lia.
    assert (0 < 10 ^ Z.of_nat k) by (apply Z.pow_pos_nonneg; lia). lia.
  - assert (Hn10 : n = 10 * (n / 10) + n mod 10) by (Z.div_mod_to_equations; lia).
    assert (Hq : 0 < n / 10 < n) by (Z.div_mod_to_equations; lia).
    assert (Hd : 0 <= n mod 10 < 10) by (apply Z.mod_pos_bound; lia).
    rewrite Hn10, str_int_snoc, length_app_one by lia.
    destruct k as [|k].
    + cbn. split; [intros Hup; lia | lia].
    + destruct (IH (n / 10)) as [Hup Hlow]; [lia | lia|].
      replace (S (S k) - 1)%nat with (S k) by lia.
      replace (S k - 1)%nat with k in Hlow by lia.
      rewrite !Nat2Z.inj_succ, !Z.pow_succ_r in * by lia. split.
      * intros Hlt. apply le_n_S, Hup. Z.div_mod_to_equations. lia.
      * intros Hle. apply le_n_S, Hlow. Z.div_mod_to_equations. lia.
Qed.

Lemma str_int_prefix (k : nat) (p : Z) :
  0 < p / 10 ^ Z.of_nat k ->
  exists t, str_int p = (str_int (p / 10 ^ Z.of_nat k) ++ t)%string
            /\ String.length t = k.
Proof.
  revert p. induction k as [|k IH]; intros p Hp.
  - exists "". cbn [Z.of_nat Z.pow]. rewrite Z.div_1_r. split; [|reflexivity].
    induction (str_int p) as [|c s IHs]; [reflexivity|].
    now rewrite string_app_cons, <- IHs.
  - assert (Hpow : 0 < 10 ^ Z.of_nat k) by (apply Z.pow_pos_nonneg; lia).
    assert (Hdd : p / 10 ^ Z.of_nat (S k) = p / 10 / 10 ^ Z.of_nat k).
    { rewrite Nat2Z.inj_succ, Z.pow_succ_r by lia. now rewrite Z.div_div by lia. }
    rewrite Hdd in *.
    assert (Hp10 : 0 < p / 10).
    { destruct (Z.lt_ge_cases 0 (p / 10)) as [H|H]; [exact H|].
      assert (p / 10 / 10 ^ Z.of_nat k <= 0); [|lia].
      apply Z.div_le_upper_bound; lia. }
    destruct (IH (p / 10) Hp) as (t & Ht & Hlen).
    assert (Hn10 : p = 10 * (p / 10) + p mod 10) by (Z.div_mod_to_equations; lia).
    assert (Hd : 0 <= p mod 10 < 10) by (apply Z.mod_pos_bound; lia).
    exists (t ++ String (digit_char (p mod 10)) "")%string. split.
    + rewrite Hn10 at 1. rewrite str_int_snoc by lia.
      now rewrite Ht, string_app_assoc'.
    + now rewrite length_app_one, Hlen.
Qed.

Lemma int_str_str_int_nonneg (n : Z) :
  0 <= n -> int_str (str_int n) = Some n.
Proof.
  intros Hn. destruct (str_int_is_digits n Hn) as [Hdig Hne].
  destruct (str_int n) as [|c s] eqn:Hs; [congruence|].
  rewrite int_str_digits by exact Hdig. rewrite <- Hs.
  now apply int_digits_str_int.
Qed.



Lemma period_year_long (k : nat) (p : Z) :
  10 ^ Z.of_nat (k + 3) <= p < 10 ^ Z.of_nat (k + 4) ->
  period_year p = Some (p / 10 ^ Z.of_nat k).
Proof.
  intros [Hlow Hup].
  assert (Hpow : 0 < 10 ^ Z.of_nat k) by (apply Z.pow_pos_nonneg; lia).
  assert (Hq : 1000 <= p / 10 ^ Z.of_nat k < 10000).
  { rewrite !Nat2Z.inj_add, !Z.pow_add_r in * by lia. split.
    - apply Z.div_le_lower_bound; [lia|]. change (10 ^ Z.of_nat 3) with 1000 in Hlow. lia.
    - apply Z.div_lt_upper_bound; [lia|]. change (10 ^ Z.of_nat 4) with 10000 in Hup. lia. }
  destruct (str_int_prefix k p) as (t & Ht & _); [lia|].
  unfold period_year. rewrite Ht.
  assert (Hlen : String.length (str_int (p / 10 ^ Z.of_nat k)) = 4%nat).
  { destruct (str_int_length 4 (p / 10 ^ Z.of_nat k)) as [Hle Hge]; [lia | lia|].
    apply Nat.le_antisymm; [apply Hle; cbn; lia | apply Hge; cbn; lia]. }
  rewrite <- Hlen, str_take_app. apply int_str_str_int_nonneg. lia.
Qed.



Lemma period_passes_after_2024 (plant : PowerPlant) (v : Z) :
  data_period plant = Some v -> 100000 <= v <= 999999 ->
  period_passes (Some 2024) None None None plant = (202400 <=? v).
Proof.
  intros Hv Hsix. unfold period_passes. rewrite Hv.
  rewrite (period_year_long 2 v) by (cbn; lia).
  cbn [below above negb andb]. rewrite !andb_true_r.
  change (10 ^ Z.of_nat 2) with 100.
  destruct (Z.ltb_spec (v / 100) 2024) as [Hlt|Hge];
    destruct (Z.leb_spec 202400 v) as [Hle|Hgt]; try reflexivity;
    Z.div_mod_to_equations; lia.
Qed.

(** X17. On plants whose data period, where there is one, is a six-digit
    [YYYYMM], keeping the data from 2024 on is keeping the plants with a
    period of at least 202400; plants without a period are dropped. *)
Theorem filter_after_2024_six_digits (plants : list PowerPlant) :
  Forall (fun plant => forall v, data_period plant = Some v -> 100000 <= v <= 999999)
         plants ->
  filter_after_2024 plants
  = filter (fun plant => period_at_least 202400 plant = true) plants.
Proof.
  unfold filter_after_2024, filter_by_data_period.
  induction 1 as [|plant plants Hplant Hall IH]; [reflexivity|].
  rewrite !filter_cons, IH.
  assert (Heq : period_passes (Some 2024) None None None plant
                = period_at_least 202400 plant).
  { unfold period_at_least. destruct (data_period plant) as [v|] eqn:Hv.
    - now apply period_passes_after_2024; [|apply Hplant].
    - unfold period_passes. now rewrite Hv. }
  rewrite Heq. reflexivity.
Qed.

Lemma filter_after_2024_six_digits_witness :
  let old := plant_with 1 "Texas" "Wind" (Some 202312) in
  let new := plant_with 2 "Texas" "Wind" (Some 202401) in
  let undated := plant_with 3 "Texas" "Wind" None in
  filter_after_2024 [old; new; undated] = [new].
Proof.
  intros old new undated.
  rewrite (filter_after_2024_six_digits [old; new; undated]).
  - reflexivity.
  - repeat (constructor;
              [intros v Hv; cbn in Hv; try discriminate; injection Hv as <-; lia|]).
    constructor.
Defined.

End Periods.

(** ** The fetch loops of the export scripts *)

Section Scripts.
Import Models EIAAtlasClient Scenarios ExportComprehensive ExportScripts.

(** A call with a limit has one pass: it has ended after it, with at most
    one request made and, for a limit above 0, at most [limit] plants. *)
Lemma get_power_plants_limit_single_pass (self : client) (h : store)
    (service : string) (query_params : option nat) (limit : Z) (fuel : nat) :
  limit <> 0 ->
  let r := get_power_plants self h service query_params (Some limit) (S fuel) in
  ended r <> OutOfFuel
  /\ (length (requests r) <= 1)%nat
  /\ (forall plants, 0 < limit -> ended r = Returned plants -> len plants <= limit).
Proof.
  intros Hl r. subst r. unfold ended, requests.
  destruct (SERVICES !! service) as [path|] eqn:Hs.
  2:{ unfold get_power_plants. rewrite Hs. cbn. repeat split; [discriminate | lia|].
      intros plants _ [=]. }
  rewrite (get_power_plants_run _ _ _ _ _ _ _ Hs). cbn [fst snd truthy].
  rewrite (proj2 (Z.eqb_neq limit 0) Hl). cbn [negb].
  set (q := set_result_record_count (Some limit) _).
  assert (Hb : batch_size_of q = limit).
  { unfold batch_size_of, q. cbn [result_record_count set_result_record_count].
    now rewrite (proj2 (Z.eqb_neq limit 0) Hl). }
  rewrite Hb, loop_pass. cbn zeta. cbn [got].
  destruct (_make_request self _ _) as [data|e].
  2:{ cbn. repeat split; [discriminate | lia|]. intros plants _ [=]. }
  destruct (features (from_dict data)) as [|ft fts] eqn:Hfs.
  - unfold after_response. rewrite Hfs. cbn [fst snd length all_plants].
    repeat split; [discriminate | lia|]. intros plants Hpos [= <-].
    unfold len. cbn [length Z.of_nat]. lia.
  - assert (Hne : features (from_dict data) <> []) by (rewrite Hfs; discriminate).
    rewrite (after_response_nonempty _ _ _ _ Hne). cbn [all_plants app].
    cbn [truthy default from_option id]. rewrite (proj2 (Z.eqb_neq limit 0) Hl).
    cbn [negb andb].
    assert (Hlen : len (map _parse_feature_to_power_plant (features (from_dict data)))
                   = len (features (from_dict data)))
      by (unfold len; now rewrite List.length_map).
    rewrite Hlen.
    destruct (Z.leb_spec limit (len (features (from_dict data)))) as [Hreach|Hshort].
    + cbn [fst snd length]. repeat split; [discriminate | lia|].
      intros plants Hpos [= <-]. apply slice_to_bound. lia.
    + rewrite (proj2 (Z.ltb_lt _ _) Hshort). cbn [orb fst snd length].
      repeat split; [discriminate | lia|].
      intros plants Hpos [= <-]. change (len (map _parse_feature_to_power_plant (features (from_dict data))) <= limit). lia.
Qed.

Lemma fetch_each_shape (self : client) (config : list (string * string * Z))
    (fuel : nat) (h : store) (all_plants : list PowerPlant) :
  Forall (fun '(_, _, limit) => 0 < limit) config ->
  let r := fetch_each self h config (S fuel) all_plants in
  (length (requests r) <= length config)%nat
  /\ exists plants,
       ended r = Returned (all_plants ++ plants)
       /\ len plants <= total_limit config.
Proof.
  intros Hall. revert h all_plants.
  induction Hall as [|[[key name] limit] config Hlimit Hall IH]; intros h all_plants.
  - cbn. split; [lia|]. exists []. now rewrite app_nil_r.
  - cbn [fetch_each].
    destruct (get_power_plants_limit_single_pass self h key None limit fuel)
      as (Hfuel & Hone & Hbound); [lia|].
    destruct (get_power_plants self h key None (Some limit) (S fuel))
      as [h1 [log out]].
    unfold ended, requests in *. cbn [fst snd] in *.
    destruct out as [plants|e|]; [| |congruence].
    + destruct (IH h1 (all_plants ++ plants)) as (Hreq & rest & Hend & Hlen).
      destruct (fetch_each self h1 config (S fuel) (all_plants ++ plants))
        as [h2 [log' out']].
      cbn [fst snd] in *. split; [rewrite length_app; cbn [length]; lia|].
      exists (plants ++ rest). rewrite app_assoc. split; [exact Hend|].
      cbn [total_limit fold_right]. fold (total_limit config).
      specialize (Hbound plants Hlimit eq_refl).
      unfold len in *. rewrite length_app. lia.
    + destruct (IH h1 all_plants) as (Hreq & rest & Hend & Hlen).
      destruct (fetch_each self h1 config (S fuel) all_plants) as [h2 [log' out']].
      cbn [fst snd] in *. split; [rewrite length_app; cbn [length]; lia|].
      exists rest. split; [exact Hend|].
      cbn [total_limit fold_right]. fold (total_limit config). lia.
Qed.

(** X18. The fetch loop of the export scripts always comes to an end
    with a list of plants: a service that fails or is unknown is passed
    over.  It makes at most one request per service and gathers at most as
    many plants as the limits add up to; for [export_mixed_data]: at most 8
    requests and 1100 plants. *)
Theorem fetch_each_passes_over_failures (self : client) (h : store)
    (config : list (string * string * Z)) (fuel : nat) :
  Forall (fun '(_, _, limit) => 0 < limit) config ->
  (exists plants,
     ended (fetch_each self h config (S fuel) []) = Returned plants
     /\ len plants <= total_limit config
     /\ (length (requests (fetch_each self h config (S fuel) [])) <= length config)%nat)
  /\ (exists plants,
        ended (mixed_all_plants self h (S fuel)) = Returned plants
        /\ len plants <= 1100
        /\ (length (requests (mixed_all_plants self h (S fuel))) <= 8)%nat).
Proof.
  intros Hall. split.
  - destruct (fetch_each_shape self config fuel h [] Hall) as (Hreq & plants & Hend & Hlen).
    exists plants. now repeat split.
  - unfold mixed_all_plants.
    destruct (fetch_each_shape self services_config fuel h [])
      as (Hreq & plants & Hend & Hlen).
    { unfold services_config. repeat constructor. }
    exists plants. repeat split; [exact Hend | exact Hlen | exact Hreq].
Qed.

Lemma fetch_each_passes_over_failures_witness :
  let config := [("solar_plants", "Solar Plants", 200)] in
  exists plants,
    ended (fetch_each unreachable ∅ config 1 []) = Returned plants
    /\ len plants <= total_limit config
    /\ (length (requests (fetch_each unreachable ∅ config 1 [])) <= length config)%nat.
Proof.
  intros config.
  apply (proj1 (fetch_each_passes_over_failures unreachable ∅ config 0
                  ltac:(repeat constructor))).
Defined.

End Scripts.

(** ** More on the duplicate removal *)

Section DeduplicationMore.
Import Models EIAAtlasClient Scenarios ExportComprehensive ExportScripts.

Lemma first_with_code_final (all_plants : list PowerPlant) (code : Z) :
  first_with_code code (final_plants all_plants) = first_with_code code all_plants.
Proof.
  destruct (final_plants_inv all_plants) as [Hfiled _].
  unfold final_plants. rewrite first_with_code_values by assumption.
  unfold unique_plants. now rewrite fold_remember_get.
Qed.

Lemma fold_remember_sublist (plants : list PowerPlant) (d : list (Z * PowerPlant)) :
  exists kept,
    sublist kept plants
    /\ map snd (fold_left remember plants d) = map snd d ++ kept.
Proof.
  revert d. induction plants as [|plant plants IH]; intros d.
  - exists []. split; [constructor | now rewrite app_nil_r].
  - cbn [fold_left]. destruct (IH (remember d plant)) as (kept & Hsub & Heq).
    unfold remember in *. destruct (dict_get d (plant_code plant)).
    + exists kept. split; [now apply sublist_cons | exact Heq].
    + exists (plant :: kept). split; [now apply sublist_skip|].
      rewrite Heq, map_app. cbn. now rewrite <- app_assoc.
Qed.

Lemma fold_remember_NoDup (plants : list PowerPlant) (d : list (Z * PowerPlant)) :
  NoDup (map fst d ++ map plant_code plants) ->
  fold_left remember plants d
  = d ++ map (fun plant => (plant_code plant, plant)) plants.
Proof.
  revert d. induction plants as [|plant plants IH]; intros d Hnd.
  - cbn. now rewrite app_nil_r.
  - cbn [fold_left map]. unfold remember at 2.
    assert (Hnew : dict_get d (plant_code plant) = None).
    { apply dict_get_None. intros Hin. apply NoDup_app in Hnd as (_ & Hdis & _).
      apply (Hdis (plant_code plant)); [now apply list_elem_of_In|]. cbn. left. }
    rewrite Hnew, IH.
    + now rewrite <- app_assoc.
    + rewrite map_app. cbn [map fst]. rewrite <- app_assoc. exact Hnd.
Qed.

(** X19. Removing duplicates keeps the plants in their order, leaves a
    list without duplicate plant codes as it is, and so changes nothing
    when done a second time. *)
Theorem final_plants_sublist_idempotent (all_plants : list PowerPlant) :
  sublist (final_plants all_plants) all_plants
  /\ (NoDup (map plant_code all_plants) -> final_plants all_plants = all_plants)
  /\ final_plants (final_plants all_plants) = final_plants all_plants.
Proof.
  assert (Hfix : forall plants,
             NoDup (map plant_code plants) -> final_plants plants = plants).
  { intros plants Hnd. unfold final_plants, unique_plants.
    rewrite fold_remember_NoDup by exact Hnd. cbn [app].
    rewrite map_map. cbn. apply map_id. }
  split; [|split].
  - unfold final_plants, unique_plants.
    destruct (fold_remember_sublist all_plants []) as (kept & Hsub & ->). exact Hsub.
  - apply Hfix.
  - apply Hfix. destruct (final_plants_inv all_plants) as [Hfiled Hnd].
    unfold final_plants. now rewrite values_codes.
Qed.

Lemma final_plants_sublist_idempotent_witness :
  let plants := [PowerPlantFilter.plant_with 7 "Texas" "Wind" None;
                 PowerPlantFilter.plant_with 9 "Ohio" "Coal" None] in
  final_plants plants = plants.
Proof.
  intros plants.
  apply (proj1 (proj2 (final_plants_sublist_idempotent plants))).
  cbn. repeat constructor; rewrite ?list_elem_of_In; cbn; intuition discriminate.
Defined.

Lemma fetch_each_first (self : client) (h : store) (key name : string)
    (limit : Z) (rest : list (string * string * Z)) (fuel : nat)
    (first all : list PowerPlant) :
  ended (get_power_plants self h key None (Some limit) fuel) = Returned first ->
  ended (fetch_each self h ((key, name, limit) :: rest) fuel []) = Returned all ->
  exists others, all = first ++ others.
Proof.
  unfold ended. cbn [fetch_each].
  destruct (get_power_plants self h key None (Some limit) fuel) as [h1 [log out]].
  cbn [snd]. intros ->. cbn [app].
  assert (Hacc : forall config h' acc all',
             snd (snd (fetch_each self h' config fuel acc)) = Returned all' ->
             exists others, all' = acc ++ others).
  { induction config as [|[[k n] l] config IH]; intros h' acc all'.
    - cbn. intros [= <-]. exists []. now rewrite app_nil_r.
    - cbn [fetch_each].
      destruct (get_power_plants self h' k None (Some l) fuel) as [h2 [log2 out2]].
      destruct out2 as [plants|e|]; [| |discriminate].
      + specialize (IH h2 (acc ++ plants) all').
        destruct (fetch_each self h2 config fuel (acc ++ plants)) as [h3 [log3 out3]].
        cbn [snd] in *. intros Hret. destruct (IH Hret) as [others ->].
        exists (plants ++ others). now rewrite app_assoc.
      + specialize (IH h2 acc all').
        destruct (fetch_each self h2 config fuel acc) as [h3 [log3 out3]].
        cbn [snd] in *. exact IH. }
  specialize (Hacc rest h1 first all).
  destruct (fetch_each self h1 rest fuel first) as [h2 [log2 out2]].
  cbn [snd] in *. exact Hacc.
Qed.

Lemma first_with_code_app (code : Z) (first others : list PowerPlant) :
  In code (map plant_code first) ->
  first_with_code code (first ++ others) = first_with_code code first.
Proof.
  unfold first_with_code. induction first as [|plant first IH]; cbn [map In find app].
  - intros [].
  - intros Hin. destruct (plant_code plant =? code) eqn:Hcode; [reflexivity|].
    apply IH. destruct Hin as [Heq|Hin]; [|exact Hin].
    apply Z.eqb_neq in Hcode. contradiction.
Qed.

Lemma sublist_length_le {A} (l k : list A) : sublist l k -> (length l <= length k)%nat.
Proof. induction 1; cbn; lia. Qed.

(** X20. The comprehensive export ends with a list of plants that has no
    plant code twice, after at most 9 requests and with at most 9000
    plants; and since [all_plants] is fetched first, a plant code that
    service returned keeps the record that service gave, whatever the
    other services say about it. *)
Theorem comprehensive_final_plants_unique (self : client) (h : store) (fuel : nat) :
  let r := comprehensive_final_plants self h (S fuel) in
  exists final,
    ended r = Returned final
    /\ NoDup (map plant_code final)
    /\ len final <= 9000
    /\ (length (requests r) <= 9)%nat
    /\ (forall first code,
          ended (get_power_plants self h "all_plants" None (Some 1000) (S fuel))
          = Returned first ->
          In code (map plant_code first) ->
          first_with_code code final = first_with_code code first).
Proof.
  intros r. subst r. unfold comprehensive_final_plants. cbn zeta.
  set (config := map _ services_to_fetch).
  assert (Hall : Forall (fun '(_, _, limit) => 0 < limit) config)
    by (subst config; cbn; repeat constructor).
  destruct (fetch_each_shape self config fuel h [] Hall) as (Hreq & plants & Hend & Hlen).
  pose proof (fun first => fetch_each_first self h "all_plants" "All Plants" 1000
                             (tl config) (S fuel) first plants) as Hfirst.
  change (("all_plants", "All Plants", 1000) :: tl config) with config in Hfirst.
  destruct (fetch_each self h config (S fuel) []) as [h1 [log out]].
  unfold ended, requests in *. cbn [fst snd app] in *. subst out.
  exists (final_plants plants). split; [reflexivity|].
  destruct (final_plants_inv plants) as [Hfiled Hnd].
  repeat split.
  - unfold final_plants. now rewrite values_codes.
  - assert (Hsub : sublist (final_plants plants) plants).
    { unfold final_plants, unique_plants.
      destruct (fold_remember_sublist plants []) as (kept & Hsub & ->). exact Hsub. }
    apply sublist_length_le in Hsub. change (total_limit config) with 9000 in Hlen.
    unfold len in *. lia.
  - exact Hreq.
  - intros first code Hret Hin. rewrite first_with_code_final.
    destruct (Hfirst first Hret eq_refl) as [others ->].
    now apply first_with_code_app.
Qed.

End DeduplicationMore.

(** ** Calls with a limit, and the type without a source *)

Section Limits.
Import Models EIAAtlasClient Scenarios.

(** X21. A call with a limit above 0 on a known service makes exactly one
    request, whatever the service answers: the limit is the page size, so
    the first page ends the loop.  The call has ended after that one pass,
    and what it returns has at most [limit] plants. *)
Theorem get_power_plants_limit_one_page (self : client) (h : store)
    (service path : string) (query_params : option nat) (limit : Z) (fuel : nat) :
  0 < limit -> SERVICES !! service = Some path ->
  let r := get_power_plants self h service query_params (Some limit) (S fuel) in
  length (requests r) = 1%nat
  /\ ended r <> OutOfFuel
  /\ (forall plants, ended r = Returned plants -> len plants <= limit).
Proof.
  intros Hpos Hs r. subst r.
  destruct (get_power_plants_limit_single_pass self h service query_params limit fuel)
    as (Hend & _ & Hbound); [lia|].
  split; [|split].
  - apply (get_power_plants_with_limit_one_request _ _ _ path); [lia | exact Hs].
  - exact Hend.
  - intros plants. now apply Hbound.
Qed.

Lemma get_power_plants_limit_one_page_witness :
  length (requests (get_power_plants (pages_of_five false) ∅ "wind_plants"
                      None (Some 3) 1)) = 1%nat.
Proof.
  apply (get_power_plants_limit_one_page (pages_of_five false) ∅ "wind_plants"
           "Wind_Power_Plants/FeatureServer/0" None 3 0); [lia | reflexivity].
Defined.

(** X22. For [HYDRO_PUMPED], which has no service of its own, the call
    makes the requests of a call to [all_plants] and, where that call
    returns plants, returns none of them: no source is classified
    [HYDRO_PUMPED].  An error of the call is passed on. *)
Theorem get_plants_by_energy_type_hydro_pumped (self : client) (h : store)
    (limit : option Z) (fuel : nat) :
  let all := get_power_plants self h "all_plants" None limit fuel in
  let r := get_plants_by_energy_type self h HYDRO_PUMPED limit fuel in
  requests r = requests all
  /\ ended r = match ended all with
               | Returned _ => Returned []
               | Raised e => Raised e
               | OutOfFuel => OutOfFuel
               end.
Proof.
  cbn zeta. unfold ended, requests, get_plants_by_energy_type.
  change (dict_get service_mapping HYDRO_PUMPED) with (@None string).
  destruct (get_power_plants self h "all_plants" None limit fuel) as [h' [log out]].
  cbn [fst snd]. split; [reflexivity|].
  destruct out as [all| |]; try reflexivity. f_equal.
  induction all as [|plant all IH]; [reflexivity|].
  rewrite filter_cons. destruct (decide _) as [Heq|_]; [|exact IH].
  now apply classify_never_hydro_pumped in Heq.
Qed.

End Limits.
